(** * The image-registry operator: storage driver resolution and the
      reconciliation controller

    A shallow embedding of [pkg/storage/storage.go] and
    [pkg/operator/controller.go].  Go's pointer arguments that a callee may
    write through ([*cfg], [cr], [modified]) are returned next to the
    result; calls into packages whose sources are not part of the
    development are parameters of the functions that make them. *)

From stdpp Require Import base strings list gmap pretty.

Open Scope string_scope.
Open Scope list_scope.

(** ** Go error values

    [err == ErrStorageNotConfigured] compares identities, so an error keeps
    where it was made: the package-level sentinel, a fresh [fmt.Errorf]
    value, a value handed back by a collaborator, or the operator's
    [permanentError] wrapper (controller.go, lines 47-53). *)
Inductive error : Type :=
| ErrStorageNotConfigured
| Errorf (msg : string)
| External (msg : string)
| permanentError (Err : error).

(** [Error()]: the sentinel's text is the one of storage.go line 21, and
    [permanentError.Error] returns the text of the wrapped error. *)
Fixpoint Error (e : error) : string :=
  match e with
  | ErrStorageNotConfigured => "storage backend not configured"
  | Errorf msg => msg
  | External msg => msg
  | permanentError e' => Error e'
  end.

(** The type assertion [err.(permanentError)]. *)
Definition isPermanent (e : error) : bool :=
  match e with
  | permanentError _ => true
  | _ => false
  end.

(** A Go result pair [(value, error)] of which exactly one side is set. *)
Inductive result (A : Type) : Type :=
| Ok (a : A)
| Err (e : error).
Arguments Ok {A} a.
Arguments Err {A} e.

#[global] Instance result_ret : MRet result := @Ok.
#[global] Instance result_bind : MBind result :=
  fun A B (k : A -> result B) (r : result A) =>
    match r with
    | Ok a => k a
    | Err e => Err e
    end.

(** [%v] of a [[]string]. *)
Definition fmt_strings (l : list string) : string :=
  "[" +:+ String.concat " " l +:+ "]".

(** [msg] contains [name] as a substring. *)
Definition mentions (msg name : string) : Prop :=
  exists pre post : string, msg = pre +:+ name +:+ post.

(** ** Package storage *)
Module storage.

(** The backend-specific parameters of a variant (region, bucket, volume
    size, ...).  The resolver never looks inside them; the zero value [[]]
    is what [&T{}] builds. *)
Definition params : Type := list (string * string).

(** [imageregistryv1.ImageRegistryConfigStorage]: one pointer per variant,
    [None] for nil. *)
Record ImageRegistryConfigStorage : Type := {
  EmptyDir : option params;
  S3 : option params;
  Swift : option params;
  GCS : option params;
  PVC : option params;
  Azure : option params
}.

(** [var cfg imageregistryv1.ImageRegistryConfigStorage] *)
Definition zeroStorage : ImageRegistryConfigStorage :=
  {| EmptyDir := None; S3 := None; Swift := None;
     GCS := None; PVC := None; Azure := None |}.

Inductive Backend : Type :=
| BEmptyDir | BS3 | BSwift | BGCS | BPVC | BAzure.

#[global] Instance Backend_eq_dec : EqDecision Backend.
Proof. solve_decision. Defined.

(** [rest.Config], reduced to its [Host] field, and [regopclient.Listers]. *)
Record RestConfig : Type := { Host : string }.
Inductive Listers : Type := mkListers.

(** Modelled from the spec: the backend packages (emptydir, s3, swift, gcs,
    pvc, azure) are not among the sources.  Section 9 describes the driver
    set as a closed tagged variant with one implementation per variant, so a
    driver value records its backend and the parameters it was built from. *)
Record Driver : Type := {
  drv_kind : Backend;
  drv_config : params
}.

Definition emptydir_NewDriver (c : params) (_ : Listers) : Driver :=
  {| drv_kind := BEmptyDir; drv_config := c |}.
Definition s3_NewDriver (c : params) (_ : RestConfig) (_ : Listers) : Driver :=
  {| drv_kind := BS3; drv_config := c |}.
Definition swift_NewDriver (c : params) (_ : Listers) : Driver :=
  {| drv_kind := BSwift; drv_config := c |}.
Definition gcs_NewDriver (c : params) (_ : Listers) : Driver :=
  {| drv_kind := BGCS; drv_config := c |}.
Definition azure_NewDriver (c : params) (_ : RestConfig) (_ : Listers) : Driver :=
  {| drv_kind := BAzure; drv_config := c |}.

(** The platform part of the install config, with the four fields that
    [getPlatformStorage] reads ([None] for nil). *)
Record Platform : Type := {
  Libvirt : option unit;
  AWS : option unit;
  PlatformAzure : option unit;
  OpenStack : option unit
}.
Record InstallConfig : Type := { InstallPlatform : Platform }.

Section Resolver.

(** [pvc.NewDriver] is the one constructor that can fail: [Some msg] is
    the text of its error.  Package pvc cannot import package storage, so
    its error is never the sentinel. *)
Variable pvc_NewDriver_error : params -> RestConfig -> option string.

Definition pvc_NewDriver (c : params) (kubeconfig : RestConfig) : result Driver :=
  match pvc_NewDriver_error c kubeconfig with
  | Some msg => Err (External msg)
  | None => Ok {| drv_kind := BPVC; drv_config := c |}
  end.

(** [clusterconfig.GetInstallConfig] *)
Variable GetInstallConfig : RestConfig -> result InstallConfig.

(** One [if cfg.X != nil { names = append(..); drivers = append(..) }]. *)
Definition record (v : option params) (name : string) (mk : params -> Driver)
    (acc : list string * list Driver) : list string * list Driver :=
  match v with
  | Some c => (acc.1 ++ [name], acc.2 ++ [mk c])
  | None => acc
  end.

Definition newDriver (cfg : ImageRegistryConfigStorage)
    (kubeconfig : RestConfig) (listers : Listers) : result Driver :=
  let acc := ([], []) in
  let acc := record (EmptyDir cfg) "EmptyDir" (fun c => emptydir_NewDriver c listers) acc in
  let acc := record (S3 cfg) "S3" (fun c => s3_NewDriver c kubeconfig listers) acc in
  let acc := record (Swift cfg) "Swift" (fun c => swift_NewDriver c listers) acc in
  let acc := record (GCS cfg) "GCS" (fun c => gcs_NewDriver c listers) acc in
  acc ← match PVC cfg with
        | Some c =>
            drv ← pvc_NewDriver c kubeconfig;
            mret (acc.1 ++ ["PVC"], acc.2 ++ [drv])
        | None => mret acc
        end;
  let acc := record (Azure cfg) "Azure" (fun c => azure_NewDriver c kubeconfig listers) acc in
  let '(names, drivers) := acc in
  (* switch len(drivers): case 0, case 1 returning drivers[0], default *)
  match drivers with
  | [] => Err ErrStorageNotConfigured
  | [d] => Ok d
  | _ =>
      Err (Errorf ("exactly one storage type should be configured at the same time, got "
                   +:+ pretty (length drivers) +:+ ": " +:+ fmt_strings names))
  end.

Definition getPlatformStorage (kubeconfig : RestConfig)
    : ImageRegistryConfigStorage * option error :=
  let cfg := zeroStorage in
  match GetInstallConfig kubeconfig with
  | Err e => (cfg, Some e)
  | Ok installConfig =>
      let p := InstallPlatform installConfig in
      let cfg :=
        if Libvirt p is Some _ then
          {| EmptyDir := Some []; S3 := S3 cfg; Swift := Swift cfg;
             GCS := GCS cfg; PVC := PVC cfg; Azure := Azure cfg |}
        else if AWS p is Some _ then
          {| EmptyDir := EmptyDir cfg; S3 := Some []; Swift := Swift cfg;
             GCS := GCS cfg; PVC := PVC cfg; Azure := Azure cfg |}
        else if PlatformAzure p is Some _ then
          {| EmptyDir := EmptyDir cfg; S3 := S3 cfg; Swift := Swift cfg;
             GCS := GCS cfg; PVC := PVC cfg; Azure := Some [] |}
        else if OpenStack p is Some _ then
          {| EmptyDir := EmptyDir cfg; S3 := S3 cfg; Swift := Some [];
             GCS := GCS cfg; PVC := PVC cfg; Azure := Azure cfg |}
        else cfg in
      (cfg, None)
  end.

(** The first component is [*cfg] after the call. *)
Definition NewDriver (cfg : ImageRegistryConfigStorage)
    (kubeconfig : RestConfig) (listers : Listers)
    : ImageRegistryConfigStorage * result Driver :=
  match newDriver cfg kubeconfig listers with
  | Err ErrStorageNotConfigured =>
      let '(cfg, err) := getPlatformStorage kubeconfig in
      match err with
      | Some e =>
          (cfg, Err (Errorf ("unable to get storage configuration from cluster install config: "
                             +:+ Error e)))
      | None => (cfg, newDriver cfg kubeconfig listers)
      end
  | r => (cfg, r)
  end.

End Resolver.

(** *** Vocabulary of the resolver's specification *)

Definition variant (cfg : ImageRegistryConfigStorage) (b : Backend) : option params :=
  match b with
  | BEmptyDir => EmptyDir cfg
  | BS3 => S3 cfg
  | BSwift => Swift cfg
  | BGCS => GCS cfg
  | BPVC => PVC cfg
  | BAzure => Azure cfg
  end.

Definition backends : list Backend := [BEmptyDir; BS3; BSwift; BGCS; BPVC; BAzure].

(** The variants of [cfg] that are populated. *)
Definition populated (cfg : ImageRegistryConfigStorage) : list Backend :=
  filter (fun b => is_Some (variant cfg b)) backends.

Definition backendName (b : Backend) : string :=
  match b with
  | BEmptyDir => "EmptyDir"
  | BS3 => "S3"
  | BSwift => "Swift"
  | BGCS => "GCS"
  | BPVC => "PVC"
  | BAzure => "Azure"
  end.

(** The PVC driver can be built: the variant is absent or its constructor
    succeeds. *)
Definition pvc_constructible (pvc_err : params -> RestConfig -> option string)
    (cfg : ImageRegistryConfigStorage) (kubeconfig : RestConfig) : Prop :=
  forall c, PVC cfg = Some c -> pvc_err c kubeconfig = None.

(** The platforms that the switch of [getPlatformStorage] names.  Any other
    platform (bare metal, for one) has no case there. *)
Inductive PlatformKind : Type :=
| PLibvirt | PAWS | PAzure | POpenStack.

(** The descriptor of platform [k]: that field set, the others nil. *)
Definition descriptor (k : PlatformKind) : InstallConfig :=
  {| InstallPlatform :=
       {| Libvirt := if k is PLibvirt then Some () else None;
          AWS := if k is PAWS then Some () else None;
          PlatformAzure := if k is PAzure then Some () else None;
          OpenStack := if k is POpenStack then Some () else None |} |}.

(** The backend that the switch assigns to each platform it names. *)
Definition fallback (k : PlatformKind) : Backend :=
  match k with
  | PLibvirt => BEmptyDir
  | PAWS => BS3
  | PAzure => BAzure
  | POpenStack => BSwift
  end.

End storage.

(** ** Package operator *)
Module operator.

Import storage.

Definition WORKQUEUE_KEY : string := "changes".

(** *** Cluster API objects *)

(** [errors.IsNotFound] and [errors.IsConflict] inspect the reason of an API
    status error. *)
Inductive StatusReason : Type :=
| StatusReasonNotFound | StatusReasonConflict | StatusReasonUnknown.

Record ApiError : Type := { Reason : StatusReason; Message : string }.

Definition IsNotFound (e : ApiError) : bool :=
  if Reason e is StatusReasonNotFound then true else false.
Definition IsConflict (e : ApiError) : bool :=
  if Reason e is StatusReasonConflict then true else false.

Inductive ManagementState : Type :=
| Managed | Unmanaged | Removed | OtherState (s : string).

Inductive ConditionStatus : Type :=
| ConditionTrue | ConditionFalse | ConditionUnknown.

#[global] Instance ConditionStatus_eq_dec : EqDecision ConditionStatus.
Proof. solve_decision. Defined.

Record OperatorCondition : Type := {
  cond_Status : ConditionStatus;
  cond_Message : string
}.

#[global] Instance OperatorCondition_eq_dec : EqDecision OperatorCondition.
Proof. solve_decision. Defined.

Record OwnerReference : Type := {
  ref_APIVersion : string;
  ref_Kind : string;
  ref_Controller : option bool
}.

Record ObjectMeta : Type := {
  Name : string;
  Namespace : string;
  Generation : Z;
  DeletionTimestamp : option Z;
  Annotations : gmap string string;
  Finalizers : list string;
  OwnerReferences : list OwnerReference
}.

Record ImageRegistrySpec : Type := {
  SpecManagementState : ManagementState;
  Storage : ImageRegistryConfigStorage
}.

(** [Conditions] is keyed by the condition type ("Available",
    "Progressing", "Failing", "Removed"). *)
Record ImageRegistryStatus : Type := {
  Conditions : gmap string OperatorCondition;
  ObservedGeneration : Z;
  InternalRegistryHostname : string
}.

Record ImageRegistry : Type := {
  Meta : ObjectMeta;
  Spec : ImageRegistrySpec;
  Status : ImageRegistryStatus
}.

(** What the service and deployment watchers hand back. *)
Record Service : Type := {
  svc_Name : string;
  svc_Namespace : string;
  svc_Ports : list Z
}.
Record Deployment : Type := { deploy_Name : string }.

(** What [client.ImageRegistries().Get] returns: the object (nil or not)
    with a nil error, or an error next to the empty object that the
    generated client allocates for the result. *)
Inductive GetResult : Type :=
| Got (cr : option ImageRegistry)
| GetFailed (cr : ImageRegistry) (err : ApiError).

(** The dynamic type of the [interface{}] a watcher delivers. *)
Inductive WatchObject : Type :=
| ImageRegistryObject (cr : ImageRegistry)
| OwnedObject (meta : ObjectMeta)
| Tombstone (inner : option ObjectMeta)
| NotAnObject.

(** Field updates. *)
Definition withStorage (st : ImageRegistryConfigStorage) (cr : ImageRegistry) : ImageRegistry :=
  {| Meta := Meta cr;
     Spec := {| SpecManagementState := SpecManagementState (Spec cr); Storage := st |};
     Status := Status cr |}.
Definition withConditions (cs : gmap string OperatorCondition) (cr : ImageRegistry) : ImageRegistry :=
  {| Meta := Meta cr; Spec := Spec cr;
     Status := {| Conditions := cs;
                  ObservedGeneration := ObservedGeneration (Status cr);
                  InternalRegistryHostname := InternalRegistryHostname (Status cr) |} |}.
Definition withHostname (h : string) (cr : ImageRegistry) : ImageRegistry :=
  {| Meta := Meta cr; Spec := Spec cr;
     Status := {| Conditions := Conditions (Status cr);
                  ObservedGeneration := ObservedGeneration (Status cr);
                  InternalRegistryHostname := h |} |}.
Definition withObservedGeneration (g : Z) (cr : ImageRegistry) : ImageRegistry :=
  {| Meta := Meta cr; Spec := Spec cr;
     Status := {| Conditions := Conditions (Status cr);
                  ObservedGeneration := g;
                  InternalRegistryHostname := InternalRegistryHostname (Status cr) |} |}.
Definition withAnnotations (a : gmap string string) (cr : ImageRegistry) : ImageRegistry :=
  {| Meta := {| Name := Name (Meta cr); Namespace := Namespace (Meta cr);
                Generation := Generation (Meta cr);
                DeletionTimestamp := DeletionTimestamp (Meta cr);
                Annotations := a;
                Finalizers := Finalizers (Meta cr);
                OwnerReferences := OwnerReferences (Meta cr) |};
     Spec := Spec cr; Status := Status cr |}.

(** *** The rate-limiting work queue

    client-go's queue as far as the controller drives it: [AddRateLimited]
    schedules the item after a delay that doubles with each earlier failure
    of the item and counts one more failure; [Forget] clears the count;
    [Done] ends the processing of an item handed out by [Get]. *)
Inductive Item : Type :=
| ItemString (s : string)
| ItemOther.

#[global] Instance Item_eq_dec : EqDecision Item.
Proof. solve_decision. Defined.

Record Queue : Type := {
  delayed : list (string * nat);
  failures : gmap string nat;
  processing : list Item
}.

Definition AddRateLimited (key : string) (q : Queue) : Queue :=
  let n := default 0%nat (failures q !! key) in
  {| delayed := delayed q ++ [(key, n)];
     failures := <[key := S n]> (failures q);
     processing := processing q |}.

Definition Forget (obj : Item) (q : Queue) : Queue :=
  {| delayed := delayed q;
     failures := if obj is ItemString key then delete key (failures q) else failures q;
     processing := processing q |}.

Definition Done (obj : Item) (q : Queue) : Queue :=
  {| delayed := delayed q;
     failures := failures q;
     processing := filter (fun o => o <> obj) (processing q) |}.

(** *** Collaborators

    Everything the controller calls that lies outside controller.go.  A
    callee that receives [cr] or [modified] by pointer returns their new
    values; a failure whose text alone is used is a [string].  The errors
    of [client.ImageRegistries().Update] and [clusterStatus.Update] are only
    logged, so these two calls appear as events and not here. *)
Record Env : Type := {
  (* c.params and constants of other packages *)
  DeploymentNamespace : string;
  ServiceName : string;
  resourceName : string -> string;
  ChecksumOperatorAnnotation : string;
  SchemeGroupVersion : string;
  (* package resource *)
  Checksum : ImageRegistrySpec -> ImageRegistryStatus -> result string;
  Apply : ImageRegistry -> bool -> ImageRegistry * bool * option string;
  (* package storage, as the controller calls it *)
  NewDriver : string -> string -> ImageRegistryConfigStorage
              -> ImageRegistryConfigStorage * result Driver;
  ValidateConfiguration : Driver -> ImageRegistry -> bool
                          -> ImageRegistry * bool * option string;
  (* package operator, other files *)
  appendFinalizer : ImageRegistry -> bool -> ImageRegistry * bool;
  verifyResource : ImageRegistry -> ImageRegistry * option string;
  Bootstrap : option error;
  finalizeResources : ImageRegistry -> option error;
  RemoveResources : ImageRegistry -> ImageRegistry * option string;
  syncStatus : ImageRegistry -> option Deployment -> option error -> bool
               -> ImageRegistry * bool;
  (* the cluster *)
  NewForConfig : option string;
  Get : string -> GetResult;
  deploymentsGet : string -> string -> option Deployment * option ApiError;
  servicesGet : string -> string -> option Service * option ApiError
}.

(** The calls of a pass that are recorded, in order.  What
    [appendFinalizer], [verifyResource], the resolver,
    [ValidateConfiguration], [syncStatus] and the watchers' [Get] may do
    to the cluster is not recorded. *)
Inductive Event : Type :=
| CallBootstrap
| CallFinalizeResources (cr : ImageRegistry)
| CallRemoveResources (cr : ImageRegistry)
| CallClusterStatusUpdate (kind : string) (value : ConditionStatus) (msg : string)
| CallApply (cr : ImageRegistry)
| CallUpdate (cr : ImageRegistry).

(** How a call ends: it returns its [error] (nil or not) or panics. *)
Inductive Outcome : Type :=
| Returned (err : option error)
| Panicked.

(** *** The state of one pass

    [cr], the [statusChanged]/[modified] flag that is passed around by
    pointer, and the calls made so far. *)
Record Pass : Type := {
  cr : ImageRegistry;
  statusChanged : bool;
  trace : list Event
}.

Definition M (A : Type) : Type := Pass -> A * Pass.

#[global] Instance M_ret : MRet M := fun A (a : A) (s : Pass) => (a, s).
#[global] Instance M_bind : MBind M :=
  fun A B (k : A -> M B) (m : M A) (s : Pass) => let '(a, s') := m s in k a s'.

Definition emit (e : Event) : M unit :=
  fun s => (tt, {| cr := cr s; statusChanged := statusChanged s; trace := trace s ++ [e] |}).
Definition getCR : M ImageRegistry := fun s => (cr s, s).
Definition getFlag : M bool := fun s => (statusChanged s, s).
Definition putCR (c : ImageRegistry) : M unit :=
  fun s => (tt, {| cr := c; statusChanged := statusChanged s; trace := trace s |}).
Definition putFlag (b : bool) : M unit :=
  fun s => (tt, {| cr := cr s; statusChanged := b; trace := trace s |}).

(** A callee taking [cr] and the flag by pointer. *)
Definition byPointer {A : Type} (f : ImageRegistry -> bool -> ImageRegistry * bool * A) : M A :=
  fun s =>
    let '(c, b, a) := f (cr s) (statusChanged s) in
    (a, {| cr := c; statusChanged := b; trace := trace s |}).

(** [%q] of a name (names hold nothing that [%q] would escape). *)
Definition quote (s : string) : string :=
  let dq := String (Ascii.ascii_of_nat 34) EmptyString in
  dq +:+ s +:+ dq.

(** Modelled from the spec: [conditionAvailable], [conditionProgressing],
    [conditionFailing] and [conditionRemoved] are defined in another file of
    the package.  Section 3: conditions are named, carry a status and a
    reason text, and are set, never silently dropped; section 4.2: the
    status is written back only if a condition changed.  Setting a condition
    stores status and text under its name and raises the flag when that
    changes what is stored. *)
Definition updateCondition (type : string) (status : ConditionStatus) (msg : string) : M unit :=
  c ← getCR;
  let new := {| cond_Status := status; cond_Message := msg |} in
  if decide (Conditions (Status c) !! type = Some new) then mret tt
  else putCR (withConditions (<[type := new]> (Conditions (Status c))) c);; putFlag true.

Definition conditionAvailable := updateCondition "Available".
Definition conditionProgressing := updateCondition "Progressing".
Definition conditionFailing := updateCondition "Failing".
Definition conditionRemoved := updateCondition "Removed".

(** Modelled from the spec: [addImageRegistryChecksum] is defined in another
    file of the package.  Sections 3 and 4.4: the fingerprint of spec and
    status is stored as an annotation on the object.  When the fingerprint
    cannot be computed the annotations are left as they are. *)
Definition addImageRegistryChecksum (env : Env) (c : ImageRegistry) : ImageRegistry :=
  match Checksum env (Spec c) (Status c) with
  | Ok dgst => withAnnotations (<[ChecksumOperatorAnnotation env := dgst]> (Annotations (Meta c))) c
  | Err _ => c
  end.

Definition createOrUpdateResources (env : Env) : M (option error) :=
  byPointer (fun c b => let '(c', b') := appendFinalizer env c b in (c', b', tt));;
  c ← getCR;
  let '(c1, verr) := verifyResource env c in
  putCR c1;;
  match verr with
  | Some msg => mret (Some (Errorf ("unable to complete resource: " +:+ msg)))
  | None =>
      let '(st, r) := NewDriver env (Name (Meta c1)) (DeploymentNamespace env)
                        (Storage (Spec c1)) in
      putCR (withStorage st c1);;
      match r with
      | Err ErrStorageNotConfigured => mret (Some (permanentError ErrStorageNotConfigured))
      | Err err => mret (Some (Errorf ("unable to create storage driver: " +:+ Error err)))
      | Ok driver =>
          verr ← byPointer (ValidateConfiguration env driver);
          match verr with
          | Some msg =>
              mret (Some (permanentError (Errorf ("invalid configuration: " +:+ msg))))
          | None =>
              c ← getCR;
              emit (CallApply c);;
              aerr ← byPointer (Apply env);
              match aerr with
              | Some msg => mret (Some (External msg))
              | None => mret None
              end
          end
      end
  end.

Definition CreateOrUpdateResources (env : Env) : M (option error) :=
  c ← getCR;
  if SpecManagementState (Spec c) is Managed
  then createOrUpdateResources env
  else mret None.

(** [metaapi.GetControllerOf]: the owner reference marked as controller. *)
Definition GetControllerOf (object : ObjectMeta) : option OwnerReference :=
  head (filter (fun r => ref_Controller r = Some true) (OwnerReferences object)).

Definition Handle (env : Env) (action : string) (o : WatchObject) (q : Queue) : Queue :=
  let decoded :=
    match o with
    | ImageRegistryObject c => Some (Meta c)
    | OwnedObject meta => Some meta
    | Tombstone inner => inner
    | NotAnObject => None
    end in
  match decoded with
  | None => q
  | Some object =>
      match o with
      | ImageRegistryObject c =>
          let dgst := match Checksum env (Spec c) (Status c) with
                      | Ok d => d
                      | Err _ => EmptyString
                      end in
          match Annotations object !! ChecksumOperatorAnnotation env with
          | Some curdgst =>
              if decide (dgst = curdgst) then q else AddRateLimited WORKQUEUE_KEY q
          | None => AddRateLimited WORKQUEUE_KEY q
          end
      | _ =>
          match GetControllerOf object with
          | None => q
          | Some ownerRef =>
              if decide (ref_Kind ownerRef <> "ImageRegistry"
                         \/ ref_APIVersion ownerRef <> SchemeGroupVersion env)
              then q
              else AddRateLimited WORKQUEUE_KEY q
          end
      end
  end.

(** The [switch cr.Spec.ManagementState] of [sync]; the value is
    [applyError]. *)
Definition manage (env : Env) : M (option error) :=
  c ← getCR;
  match SpecManagementState (Spec c) with
  | Removed =>
      emit (CallRemoveResources c);;
      let '(c', err) := RemoveResources env c in
      putCR c';;
      match err with
      | Some msg =>
          (* the error of clusterStatus.Update is only logged *)
          emit (CallClusterStatusUpdate "Failing" ConditionTrue "unable to remove registry");;
          conditionProgressing ConditionTrue ("unable to remove objects: " +:+ msg);;
          mret None
      | None =>
          conditionRemoved ConditionTrue EmptyString;;
          conditionAvailable ConditionFalse EmptyString;;
          conditionProgressing ConditionFalse EmptyString;;
          conditionFailing ConditionFalse EmptyString;;
          mret None
      end
  | Managed =>
      conditionRemoved ConditionFalse EmptyString;;
      CreateOrUpdateResources env
  | Unmanaged => mret None
  | OtherState _ => mret None
  end.

(** The service lookup of [sync]; [Some] is an early exit. *)
Definition resolveHostname (env : Env) (applyError : option error) : M (option Outcome) :=
  match applyError with
  | Some _ => mret None
  | None =>
      let '(svc, err) := servicesGet env (ServiceName env) (DeploymentNamespace env) in
      match err with
      | None =>
          match svc with
          | None => mret (Some Panicked) (* the type assertion on a nil svc *)
          | Some svcObj =>
              match svc_Ports svcObj !! 0%nat with
              | None => mret (Some Panicked) (* Ports[0] out of range *)
              | Some port =>
                  let svcHostname :=
                    svc_Name svcObj +:+ "." +:+ svc_Namespace svcObj
                    +:+ ".svc.cluster.local:" +:+ pretty port in
                  c ← getCR;
                  if decide (InternalRegistryHostname (Status c) <> svcHostname)
                  then putCR (withHostname svcHostname c);; putFlag true;; mret None
                  else mret None
              end
          end
      | Some e =>
          if IsNotFound e then mret None
          else mret (Some (Returned (Some (Errorf
                 ("failed to get " +:+ quote (ServiceName env) +:+ " service " +:+ Message e)))))
      end
  end.

(** [sync] from the switch up to and including [syncStatus]; [Some] is an
    early exit. *)
Definition settle (env : Env) : M (option Outcome) :=
  applyError ← manage env;
  c ← getCR;
  let '(deploy, err) := deploymentsGet env (Name (Meta c)) (DeploymentNamespace env) in
  let lookup :=
    match err with
    | Some e =>
        if IsNotFound e then inr None
        else inl (Errorf ("failed to get " +:+ quote (Name (Meta c)) +:+ " deployment: "
                          +:+ Message e))
    | None => inr deploy
    end in
  match lookup with
  | inl e => mret (Some (Returned (Some e)))
  | inr deployInterface =>
      exit ← resolveHostname env applyError;
      match exit with
      | Some out => mret (Some out)
      | None =>
          byPointer (fun c b =>
            let '(c', b') := syncStatus env c deployInterface applyError b in (c', b', tt));;
          mret None
      end
  end.

(** The end of [sync]: [if statusChanged { ... Update(cr) }]; the error of
    [Update] is only logged. *)
Definition writeBack (env : Env) : M unit :=
  changed ← getFlag;
  match changed with
  | true =>
      c ← getCR;
      let c := withObservedGeneration (Generation (Meta c)) c in
      let c := addImageRegistryChecksum env c in
      putCR c;;
      emit (CallUpdate c)
  | false => mret tt
  end.

Definition start (c : ImageRegistry) : Pass :=
  {| cr := c; statusChanged := false; trace := [] |}.

Definition sync (env : Env) : Outcome * list Event :=
  match NewForConfig env with
  | Some msg => (Returned (Some (External msg)), [])
  | None =>
      match Get env (resourceName env (DeploymentNamespace env)) with
      | GetFailed c err =>
          if IsNotFound err then (Returned None, [])
          else (Returned (Some (Errorf ("failed to get " +:+ quote (Name (Meta c))
                                        +:+ " custom resource: " +:+ Message err))), [])
      | Got None => (Returned (Bootstrap env), [CallBootstrap])
      | Got (Some c) =>
          match DeletionTimestamp (Meta c) with
          | Some _ => (Returned (finalizeResources env c), [CallFinalizeResources c])
          | None =>
              let '(exit, s) := settle env (start c) in
              match exit with
              | Some out => (out, trace s)
              | None => (Returned None, trace ((writeBack env s).2))
              end
          end
      end
  end.

(** The closure that [eventProcessor] runs on each item taken from the
    queue; [Done] is deferred, so it runs on every way out. *)
Definition processItem (env : Env) (obj : Item) (q : Queue) : Outcome * Queue * list Event :=
  match obj with
  | ItemOther => (Returned None, Done obj (Forget obj q), [])
  | ItemString _ =>
      match sync env with
      | (Returned (Some err), tr) =>
          (Returned (Some (Errorf ("unable to sync: " +:+ Error err +:+ ", requeuing"))),
           Done obj (AddRateLimited WORKQUEUE_KEY q), tr)
      | (Returned None, tr) => (Returned None, Done obj (Forget obj q), tr)
      | (Panicked, tr) => (Panicked, Done obj q, tr)
      end
  end.

(** The status writes of a pass. *)
Definition updates (tr : list Event) : list ImageRegistry :=
  omap (fun e => if e is CallUpdate c then Some c else None) tr.

(** *** Starting the controller

    [Run] up to the stop signal.  The watchers are kept in a Go map, whose
    iteration order is not fixed: [order] is the order in which the loop
    meets them.  The error of [clusterStatus.Create] is only logged. *)
Definition watcherNames : list string :=
  ["deployments"; "services"; "secrets"; "configmaps"; "servicesaccounts";
   "routes"; "clusterroles"; "clusterrolebindings"; "imageregistry"].

Inductive RunEvent : Type :=
| StatusCreate
| WatcherStart (name : string)
| EventProcessorStart
| QueueShutDown.

(** [for _, watcher := range c.watchers { err = watcher.Start(..); if err !=
    nil { return err } }] *)
Fixpoint startWatchers (start : string -> option string) (order : list string)
    : option error * list RunEvent :=
  match order with
  | [] => (None, [])
  | w :: rest =>
      match start w with
      | Some msg => (Some (External msg), [WatcherStart w])
      | None =>
          let '(err, evs) := startWatchers start rest in
          (err, WatcherStart w :: evs)
      end
  end.

(** [ShutDown] is deferred, so it closes every run. *)
Definition Run (start : string -> option string) (order : list string)
    : option error * list RunEvent :=
  let '(err, evs) := startWatchers start order in
  match err with
  | Some e => (Some e, [StatusCreate] ++ evs ++ [QueueShutDown])
  | None => (None, [StatusCreate] ++ evs ++ [EventProcessorStart; QueueShutDown])
  end.

(** A step of a pass that writes nothing back. *)
Definition silent {A : Type} (m : M A) : Prop :=
  forall s, updates (trace (m s).2) = updates (trace s).

(** The controller's resolver call served by the resolver of storage.go.
    controller.go passes the object's name and namespace where storage.go
    takes the kubeconfig and the listers; the configuration is handed over
    as it is. *)
Definition resolveWith (pvc_err : params -> RestConfig -> option string)
    (gic : RestConfig -> result InstallConfig) (kubeconfig : RestConfig)
    (crname crnamespace : string) (cfg : ImageRegistryConfigStorage)
    : ImageRegistryConfigStorage * result Driver :=
  storage.NewDriver pvc_err gic cfg kubeconfig mkListers.

End operator.

(** ** Concrete configurations, objects and environments *)
Module examples.

Import storage operator.

Definition pvc_down : params -> RestConfig -> option string :=
  fun _ _ => Some "unable to load kube client config".
Definition pvc_up : params -> RestConfig -> option string := fun _ _ => None.
Definition no_install_config : RestConfig -> result InstallConfig :=
  fun _ => Err (External "install config not found").
Definition kube : RestConfig := {| Host := "https://api.cluster.local:6443" |}.

(** The install config of a bare-metal cluster as [getPlatformStorage] sees
    it: none of the four fields that it reads is set. *)
Definition bareMetal : InstallConfig :=
  {| InstallPlatform := {| Libvirt := None; AWS := None;
                           PlatformAzure := None; OpenStack := None |} |}.

Definition only_pvc : ImageRegistryConfigStorage :=
  {| EmptyDir := None; S3 := None; Swift := None; GCS := None;
     PVC := Some [("claim", "registry-storage")]; Azure := None |}.
Definition only_s3 : ImageRegistryConfigStorage :=
  {| EmptyDir := None; S3 := Some [("bucket", "registry")]; Swift := None; GCS := None;
     PVC := None; Azure := None |}.
Definition s3_and_pvc : ImageRegistryConfigStorage :=
  {| EmptyDir := None; S3 := Some [("bucket", "registry")]; Swift := None; GCS := None;
     PVC := Some [("claim", "registry-storage")]; Azure := None |}.
Definition s3_and_gcs : ImageRegistryConfigStorage :=
  {| EmptyDir := None; S3 := Some [("bucket", "registry")]; Swift := None;
     GCS := Some [("bucket", "registry")]; PVC := None; Azure := None |}.

Definition checksumAnnotation : string := "imageregistry.operator.openshift.io/checksum".

(** A stand-in for [resource.Checksum]: a text that depends on the spec and
    the status only. *)
Definition digest (spec : ImageRegistrySpec) (status : ImageRegistryStatus) : result string :=
  Ok ("state=" +:+ match SpecManagementState spec with
                   | Managed => "Managed"
                   | Unmanaged => "Unmanaged"
                   | Removed => "Removed"
                   | OtherState s => s
                   end
      +:+ ";backends=" +:+ fmt_strings (backendName <$> populated (Storage spec))
      +:+ ";conditions=" +:+ fmt_strings (map_to_list (Conditions status)).*1
      +:+ ";generation=" +:+ pretty (ObservedGeneration status)
      +:+ ";hostname=" +:+ InternalRegistryHostname status).

Definition hostname : string :=
  "image-registry.openshift-image-registry.svc.cluster.local:5000".

(** The managed object as a settled pass leaves it: generation observed,
    hostname known, [Removed] false, and the checksum annotation holding the
    fingerprint of its spec and status. *)
Definition registry (state : ManagementState) (st : ImageRegistryConfigStorage)
    (conds : gmap string OperatorCondition) : ImageRegistry :=
  let spec := {| SpecManagementState := state; Storage := st |} in
  let status := {| Conditions := conds; ObservedGeneration := 1;
                   InternalRegistryHostname := hostname |} in
  {| Meta := {| Name := "image-registry"; Namespace := "openshift-image-registry";
                Generation := 1; DeletionTimestamp := None;
                Annotations :=
                  match digest spec status with
                  | Ok d => {[ checksumAnnotation := d ]}
                  | Err _ => ∅
                  end;
                Finalizers := ["imageregistry.operator.openshift.io/finalizer"];
                OwnerReferences := [] |};
     Spec := spec; Status := status |}.

Definition notRemoved : gmap string OperatorCondition :=
  {[ "Removed" := {| cond_Status := ConditionFalse; cond_Message := EmptyString |} ]}.

Definition settled : ImageRegistry := registry Managed only_s3 notRemoved.
Definition ambiguous : ImageRegistry := registry Managed s3_and_gcs notRemoved.
Definition removing : ImageRegistry := registry Removed only_s3 ∅.
Definition deleting : ImageRegistry :=
  let c := registry Unmanaged only_s3 notRemoved in
  {| Meta := {| Name := Name (Meta c); Namespace := Namespace (Meta c);
                Generation := Generation (Meta c); DeletionTimestamp := Some 1546300800%Z;
                Annotations := Annotations (Meta c); Finalizers := Finalizers (Meta c);
                OwnerReferences := OwnerReferences (Meta c) |};
     Spec := Spec c; Status := Status c |}.

(** An environment in which the cluster answers, the object [c] is
    fetched, every step succeeds and nothing needs changing, but for the
    outcome [apply] of the generator and [remove] of the teardown. *)
Definition cluster (c : GetResult)
    (apply : ImageRegistry -> bool -> ImageRegistry * bool * option string)
    (remove : option string) : Env :=
  {| DeploymentNamespace := "openshift-image-registry";
     ServiceName := "image-registry";
     resourceName := fun _ => "image-registry";
     ChecksumOperatorAnnotation := checksumAnnotation;
     SchemeGroupVersion := "imageregistry.operator.openshift.io/v1alpha1";
     Checksum := digest;
     Apply := apply;
     NewDriver := resolveWith pvc_up no_install_config kube;
     ValidateConfiguration := fun _ c b => (c, b, None);
     appendFinalizer := fun c b => (c, b);
     verifyResource := fun c => (c, None);
     Bootstrap := None;
     finalizeResources := fun _ => None;
     RemoveResources := fun c => (c, remove);
     syncStatus := fun c _ _ b => (c, b);
     NewForConfig := None;
     Get := fun _ => c;
     deploymentsGet := fun name _ => (Some {| deploy_Name := name |}, None);
     servicesGet := fun name ns =>
       (Some {| svc_Name := name; svc_Namespace := ns; svc_Ports := [5000%Z] |}, None) |}.

Definition unchanged : ImageRegistry -> bool -> ImageRegistry * bool * option string :=
  fun c b => (c, b, None).
(** The generator had to recreate a child resource: the flag is raised and
    the object itself is left alone. *)
Definition recreated : ImageRegistry -> bool -> ImageRegistry * bool * option string :=
  fun c _ => (c, true, None).
Definition refused : ImageRegistry -> bool -> ImageRegistry * bool * option string :=
  fun c b => (c, b, Some "connection refused").

Definition notFound : GetResult :=
  GetFailed (registry (OtherState EmptyString) zeroStorage ∅)
    {| Reason := StatusReasonNotFound;
       Message := "imageregistries.imageregistry.operator.openshift.io not found" |}.

Definition unreachable : GetResult :=
  GetFailed (registry (OtherState EmptyString) zeroStorage ∅)
    {| Reason := StatusReasonUnknown; Message := "connection refused" |}.

Definition unconfigured : ImageRegistry := registry Managed zeroStorage notRemoved.
Definition unmanaged : ImageRegistry := registry Unmanaged only_s3 notRemoved.

(** [env] with another answer of the services watcher. *)
Definition withServices (svc : string -> string -> option Service * option ApiError)
    (env : Env) : Env :=
  {| DeploymentNamespace := DeploymentNamespace env;
     ServiceName := ServiceName env;
     resourceName := resourceName env;
     ChecksumOperatorAnnotation := ChecksumOperatorAnnotation env;
     SchemeGroupVersion := SchemeGroupVersion env;
     Checksum := Checksum env;
     Apply := Apply env;
     NewDriver := NewDriver env;
     ValidateConfiguration := ValidateConfiguration env;
     appendFinalizer := appendFinalizer env;
     verifyResource := verifyResource env;
     Bootstrap := Bootstrap env;
     finalizeResources := finalizeResources env;
     RemoveResources := RemoveResources env;
     syncStatus := syncStatus env;
     NewForConfig := NewForConfig env;
     Get := Get env;
     deploymentsGet := deploymentsGet env;
     servicesGet := svc |}.

(** A service that exposes no port. *)
Definition portless : string -> string -> option Service * option ApiError :=
  fun name ns => (Some {| svc_Name := name; svc_Namespace := ns; svc_Ports := [] |}, None).

(** A deployment owned by the managed object, and a pod owned by a replica
    set. *)
Definition ownedDeployment : ObjectMeta :=
  {| Name := "image-registry"; Namespace := "openshift-image-registry";
     Generation := 3; DeletionTimestamp := None; Annotations := ∅; Finalizers := [];
     OwnerReferences :=
       [{| ref_APIVersion := "imageregistry.operator.openshift.io/v1alpha1";
           ref_Kind := "ImageRegistry"; ref_Controller := Some true |}] |}.


Definition idle : Queue :=
  {| delayed := []; failures := {[ WORKQUEUE_KEY := 2%nat ]};
     processing := [ItemString WORKQUEUE_KEY] |}.

End examples.

(** ** Strings *)

Lemma append_assoc (a b c : string) : (a +:+ b) +:+ c = a +:+ (b +:+ c).
Proof.
  induction a as [|x a IH]; [reflexivity|].
  change (String x ((a +:+ b) +:+ c) = String x (a +:+ b +:+ c)).
  now rewrite IH.
Qed.

Lemma mentions_here (pre name post : string) : mentions (pre +:+ name +:+ post) name.
Proof. exists pre, post. reflexivity. Qed.

Lemma mentions_append_l (pre msg name : string) :
  mentions msg name -> mentions (pre +:+ msg) name.
Proof.
  intros (p & q & ->). exists (pre +:+ p), q. now rewrite append_assoc.
Qed.

Lemma mentions_append_r (msg post name : string) :
  mentions msg name -> mentions (msg +:+ post) name.
Proof.
  intros (p & q & ->). exists p, (q +:+ post). now rewrite !append_assoc.
Qed.

Lemma concat_mentions (sep name : string) (l : list string) :
  In name l -> mentions (String.concat sep l) name.
Proof.
  induction l as [|x l IH]; [intros []|].
  intros [-> | Hin].
  - destruct l as [|y l]; simpl.
    + exists EmptyString, EmptyString. change (name = name +:+ EmptyString).
      clear. induction name as [|x name IH]; [reflexivity|].
      change (String x name = String x (name +:+ EmptyString)). now rewrite <- IH.
    + exists EmptyString, (sep +:+ String.concat sep (y :: l)). reflexivity.
  - destruct l as [|y l]; [destruct Hin|].
    change (String.concat sep (x :: y :: l))
      with (x +:+ sep +:+ String.concat sep (y :: l)).
    apply mentions_append_l, mentions_append_l, IH, Hin.
Qed.

Lemma fmt_strings_mentions (name : string) (l : list string) :
  In name l -> mentions (fmt_strings l) name.
Proof.
  intros Hin. unfold fmt_strings.
  apply mentions_append_l, mentions_append_r, concat_mentions, Hin.
Qed.

(** ** The storage driver resolver *)

Section ResolverFacts.
Import storage.
Variable pvc_err : params -> RestConfig -> option string.
Variable gic : RestConfig -> result InstallConfig.

(** A failing PVC constructor ends [newDriver] at once, whatever else is
    configured, and [NewDriver] passes the error on with [*cfg] untouched. *)
Lemma newDriver_pvc_error cfg k l c msg :
  PVC cfg = Some c -> pvc_err c k = Some msg ->
  newDriver pvc_err cfg k l = Err (External msg) /\
  NewDriver pvc_err gic cfg k l = (cfg, Err (External msg)).
Proof.
  intros HP He.
  assert (H : newDriver pvc_err cfg k l = Err (External msg)).
  { unfold newDriver, pvc_NewDriver. rewrite HP. simpl. rewrite He. reflexivity. }
  split; [exact H|]. unfold NewDriver. rewrite H. reflexivity.
Qed.

(** Once the PVC constructor is out of the way the resolver only counts
    the populated variants. *)
Lemma newDriver_constructible cfg k l :
  pvc_constructible pvc_err cfg k ->
  newDriver pvc_err cfg k l =
    match populated cfg with
    | [] => Err ErrStorageNotConfigured
    | [b] => Ok {| drv_kind := b; drv_config := default [] (variant cfg b) |}
    | bs =>
        Err (Errorf ("exactly one storage type should be configured at the same time, got "
                     +:+ pretty (length bs) +:+ ": "
                     +:+ fmt_strings (backendName <$> bs)))
    end.
Proof.
  intros Hc. unfold newDriver, pvc_NewDriver.
  destruct cfg as [e s w g p a]; simpl in *.
  assert (Hp : forall c, p = Some c -> pvc_err c k = None) by (intros c Hc'; apply Hc, Hc').
  destruct p as [c|]; [rewrite (Hp c eq_refl)|];
    destruct e, s, w, g, a; reflexivity.
Qed.

Lemma NewDriver_not_unconfigured cfg k l r :
  newDriver pvc_err cfg k l = r -> r <> Err ErrStorageNotConfigured ->
  NewDriver pvc_err gic cfg k l = (cfg, r).
Proof.
  intros H Hr. unfold NewDriver. rewrite H.
  destruct r as [d|[]]; try reflexivity. now destruct Hr.
Qed.

(** When the install config cannot be read the retry is not made. *)
Lemma NewDriver_install_config_error cfg k l e :
  newDriver pvc_err cfg k l = Err ErrStorageNotConfigured ->
  gic k = Err e ->
  storage.NewDriver pvc_err gic cfg k l
  = (zeroStorage,
     Err (Errorf ("unable to get storage configuration from cluster install config: "
                  +:+ Error e))).
Proof.
  intros H He. unfold storage.NewDriver, getPlatformStorage. rewrite H, He. reflexivity.
Qed.

(** A platform that [getPlatformStorage] does not know leaves the
    configuration empty, and the retry ends with the sentinel. *)
Lemma NewDriver_unknown_platform cfg k l :
  newDriver pvc_err cfg k l = Err ErrStorageNotConfigured ->
  gic k = Ok {| InstallPlatform := {| Libvirt := None; AWS := None;
                                      PlatformAzure := None; OpenStack := None |} |} ->
  storage.NewDriver pvc_err gic cfg k l = (zeroStorage, Err ErrStorageNotConfigured).
Proof.
  intros H Hg. unfold storage.NewDriver, getPlatformStorage. rewrite H, Hg. reflexivity.
Qed.

End ResolverFacts.

Import storage operator examples.

Lemma populated_variant cfg b : b ∈ populated cfg <-> variant cfg b <> None.
Proof.
  unfold populated. rewrite list_elem_of_filter, <- not_eq_None_Some.
  split; [tauto|]. intros H; split; [exact H|].
  unfold backends. destruct b; set_solver.
Qed.

Lemma populated_nil_no_pvc pvc_err cfg k :
  PVC cfg = None -> pvc_constructible pvc_err cfg k.
Proof. intros H c Hc. congruence. Qed.

(** C1 (as amended): when exactly one variant is populated, [newDriver] and
    [NewDriver] return the driver of that variant, built from its
    parameters, and no error, provided the PVC constructor does not fail;
    when the PVC variant is populated and its constructor fails, both return
    the constructor's error and no driver. *)
Theorem C1_single_variant_resolves pvc_err gic cfg k l b :
  populated cfg = [b] ->
  (pvc_constructible pvc_err cfg k ->
   exists c, variant cfg b = Some c /\
     newDriver pvc_err cfg k l = Ok {| drv_kind := b; drv_config := c |} /\
     storage.NewDriver pvc_err gic cfg k l = (cfg, Ok {| drv_kind := b; drv_config := c |})) /\
  (forall c msg, PVC cfg = Some c -> pvc_err c k = Some msg ->
     newDriver pvc_err cfg k l = Err (External msg) /\
     storage.NewDriver pvc_err gic cfg k l = (cfg, Err (External msg))).
Proof.
  intros Hpop. split; [|intros c msg; apply newDriver_pvc_error].
  intros Hc.
  assert (Hb : variant cfg b <> None).
  { apply populated_variant. rewrite Hpop. set_solver. }
  destruct (variant cfg b) as [c|] eqn:Hv; [|congruence].
  exists c. split; [reflexivity|].
  assert (H : newDriver pvc_err cfg k l = Ok {| drv_kind := b; drv_config := c |}).
  { rewrite (newDriver_constructible pvc_err cfg k l Hc), Hpop, Hv. reflexivity. }
  split; [exact H|].
  apply NewDriver_not_unconfigured; [exact H | discriminate].
Qed.

Lemma C1_single_variant_resolves_witness :
  newDriver pvc_up only_s3 kube mkListers
  = Ok {| drv_kind := BS3; drv_config := [("bucket", "registry")] |}.
Proof.
  destruct (C1_single_variant_resolves pvc_up no_install_config only_s3 kube mkListers BS3
              eq_refl) as [H _].
  destruct H as (c & Hv & Hn & _).
  - intros c Hc. reflexivity.
  - injection Hv as <-. exact Hn.
Defined.

(** C1 as stated fails: only the PVC variant is populated, its constructor
    fails, and resolution returns that error and no driver. *)
Lemma C1_counterexample :
  populated only_pvc = [BPVC] /\
  newDriver pvc_down only_pvc kube mkListers
    = Err (External "unable to load kube client config") /\
  storage.NewDriver pvc_down no_install_config only_pvc kube mkListers
    = (only_pvc, Err (External "unable to load kube client config")).
Proof. repeat split. Qed.

(** C2 (as amended): when two or more variants are populated and the PVC
    constructor does not fail, [newDriver] and [NewDriver] return no driver
    and the error "exactly one storage type should be configured at the same
    time, got N: [names]", whose text contains the name of every populated
    variant; when the PVC variant is populated and its constructor fails,
    both return the constructor's error instead. *)
Theorem C2_several_variants_ambiguous pvc_err gic cfg k l :
  (2 <= length (populated cfg))%nat ->
  (pvc_constructible pvc_err cfg k ->
   exists msg,
     newDriver pvc_err cfg k l = Err (Errorf msg) /\
     storage.NewDriver pvc_err gic cfg k l = (cfg, Err (Errorf msg)) /\
     msg = "exactly one storage type should be configured at the same time, got "
           +:+ pretty (length (populated cfg)) +:+ ": "
           +:+ fmt_strings (backendName <$> populated cfg) /\
     forall b, variant cfg b <> None -> mentions msg (backendName b)) /\
  (forall c msg, PVC cfg = Some c -> pvc_err c k = Some msg ->
     newDriver pvc_err cfg k l = Err (External msg) /\
     storage.NewDriver pvc_err gic cfg k l = (cfg, Err (External msg))).
Proof.
  intros Hlen. split; [|intros c msg; apply newDriver_pvc_error].
  intros Hc. eexists.
  assert (H : newDriver pvc_err cfg k l = Err (Errorf
     ("exactly one storage type should be configured at the same time, got "
      +:+ pretty (length (populated cfg)) +:+ ": "
      +:+ fmt_strings (backendName <$> populated cfg)))).
  { rewrite (newDriver_constructible pvc_err cfg k l Hc).
    destruct (populated cfg) as [|b1 [|b2 bs]]; simpl in Hlen; [lia | lia | reflexivity]. }
  split; [exact H|]. split; [|split; [reflexivity|]].
  - apply NewDriver_not_unconfigured; [exact H | discriminate].
  - intros b Hb. apply populated_variant in Hb.
    do 3 apply mentions_append_l. apply fmt_strings_mentions.
    apply list_elem_of_In, list_elem_of_fmap. exists b. split; [reflexivity | exact Hb].
Qed.

Lemma C2_several_variants_ambiguous_witness :
  newDriver pvc_up s3_and_gcs kube mkListers
  = Err (Errorf "exactly one storage type should be configured at the same time, got 2: [S3 GCS]")
  /\ mentions "exactly one storage type should be configured at the same time, got 2: [S3 GCS]" "S3"
  /\ mentions "exactly one storage type should be configured at the same time, got 2: [S3 GCS]" "GCS".
Proof.
  destruct (C2_several_variants_ambiguous pvc_up no_install_config s3_and_gcs kube mkListers)
    as [H _].
  - vm_compute. lia.
  - destruct H as (msg & Hn & _ & Hm & Hall).
    + intros c Hc. reflexivity.
    + assert (Hmsg : msg = "exactly one storage type should be configured at the same time, got 2: [S3 GCS]")
        by (rewrite Hm; reflexivity).
      rewrite <- Hmsg. split; [exact Hn|].
      split; [apply (Hall BS3) | apply (Hall BGCS)]; discriminate.
Defined.

(** C2 as stated fails: S3 and PVC are populated, the PVC constructor
    fails, and the error returned is the constructor's, not the one that
    lists the configured backends. *)
Lemma C2_counterexample :
  populated s3_and_pvc = [BS3; BPVC] /\
  newDriver pvc_down s3_and_pvc kube mkListers
    = Err (External "unable to load kube client config") /\
  storage.NewDriver pvc_down no_install_config s3_and_pvc kube mkListers
    = (s3_and_pvc, Err (External "unable to load kube client config")).
Proof. repeat split. Qed.

(** C3 (as amended): with no variant populated [newDriver] fails with
    [ErrStorageNotConfigured].  When the install config then describes one
    of the four platforms that [getPlatformStorage] names, [NewDriver]
    overwrites the configuration with the one holding exactly the fallback
    variant of that platform (Libvirt: EmptyDir, AWS: S3, Azure: Azure,
    OpenStack: Swift), its result is that of one more [newDriver] call on
    the new configuration, and this call returns the fallback driver.  For
    every other platform, bare metal included, no variant is written: the
    configuration is left empty and the one retry ends with
    [ErrStorageNotConfigured] again. *)
Theorem C3_platform_fallback pvc_err gic cfg k l :
  populated cfg = [] ->
  newDriver pvc_err cfg k l = Err ErrStorageNotConfigured /\
  (forall p, gic k = Ok (descriptor p) ->
    let cfg' := (getPlatformStorage gic k).1 in
    populated cfg' = [fallback p] /\
    variant cfg' (fallback p) = Some [] /\
    storage.NewDriver pvc_err gic cfg k l = (cfg', newDriver pvc_err cfg' k l) /\
    newDriver pvc_err cfg' k l = Ok {| drv_kind := fallback p; drv_config := [] |}) /\
  (forall ic, gic k = Ok ic ->
    Libvirt (InstallPlatform ic) = None -> AWS (InstallPlatform ic) = None ->
    PlatformAzure (InstallPlatform ic) = None -> OpenStack (InstallPlatform ic) = None ->
    let cfg' := (getPlatformStorage gic k).1 in
    populated cfg' = [] /\
    storage.NewDriver pvc_err gic cfg k l = (cfg', newDriver pvc_err cfg' k l) /\
    newDriver pvc_err cfg' k l = Err ErrStorageNotConfigured).
Proof.
  intros Hpop.
  assert (HP : PVC cfg = None).
  { destruct (PVC cfg) eqn:E; [|reflexivity].
    assert (BPVC ∈ populated cfg) by (apply populated_variant; simpl; congruence).
    rewrite Hpop in *. set_solver. }
  assert (H0 : newDriver pvc_err cfg k l = Err ErrStorageNotConfigured).
  { rewrite (newDriver_constructible pvc_err cfg k l (populated_nil_no_pvc _ _ _ HP)), Hpop.
    reflexivity. }
  split; [exact H0|]. split.
  - intros p Hg. unfold storage.NewDriver, getPlatformStorage. rewrite H0, Hg.
    destruct p; repeat split.
  - intros [[li aw az os]] Hg H1 H2 H3 H4. cbn in H1, H2, H3, H4. subst.
    unfold storage.NewDriver, getPlatformStorage. rewrite H0, Hg.
    repeat split.
Qed.

Lemma C3_platform_fallback_witness :
  storage.NewDriver pvc_up (fun _ => Ok (descriptor PAWS)) zeroStorage kube mkListers
  = ({| EmptyDir := None; S3 := Some []; Swift := None; GCS := None;
        PVC := None; Azure := None |},
     Ok {| drv_kind := BS3; drv_config := [] |}).
Proof.
  destruct (C3_platform_fallback pvc_up (fun _ => Ok (descriptor PAWS)) zeroStorage kube
              mkListers eq_refl) as (_ & H & _).
  destruct (H PAWS eq_refl) as (_ & _ & HN & Hn).
  rewrite HN, Hn. reflexivity.
Defined.

(** C3 as stated fails: nothing is configured and the cluster runs on bare
    metal, which the switch of [getPlatformStorage] does not name; no
    variant is written and the retry fails as the first attempt did. *)
Lemma C3_counterexample :
  populated zeroStorage = [] /\
  getPlatformStorage (fun _ => Ok bareMetal) kube = (zeroStorage, None) /\
  storage.NewDriver pvc_up (fun _ => Ok bareMetal) zeroStorage kube mkListers
  = (zeroStorage, Err ErrStorageNotConfigured).
Proof. repeat split. Qed.

(** ** The pass monad *)

Lemma bind_run {A B : Type} (m : M A) (k : A -> M B) (s : Pass) :
  (m ≫= k) s = let '(a, s') := m s in k a s'.
Proof. reflexivity. Qed.

Lemma updates_app (tr1 tr2 : list Event) : updates (tr1 ++ tr2) = updates tr1 ++ updates tr2.
Proof. unfold updates. apply omap_app. Qed.

Create HintDb silent.

Lemma silent_ret {A : Type} (a : A) : silent (mret a).
Proof. intros s. reflexivity. Qed.

Lemma silent_bind {A B : Type} (m : M A) (k : A -> M B) :
  silent m -> (forall a, silent (k a)) -> silent (m ≫= k).
Proof.
  intros Hm Hk s. rewrite bind_run. specialize (Hm s).
  destruct (m s) as [a s']. rewrite (Hk a s'). exact Hm.
Qed.

Lemma silent_getCR : silent getCR.
Proof. intros s. reflexivity. Qed.

Lemma silent_getFlag : silent getFlag.
Proof. intros s. reflexivity. Qed.

Lemma silent_putCR c : silent (putCR c).
Proof. intros s. reflexivity. Qed.

Lemma silent_putFlag b : silent (putFlag b).
Proof. intros s. reflexivity. Qed.

Lemma silent_byPointer {A : Type} (f : ImageRegistry -> bool -> ImageRegistry * bool * A) :
  silent (byPointer f).
Proof.
  intros s. unfold byPointer.
  destruct (f (cr s) (statusChanged s)) as [[c b] a]. reflexivity.
Qed.

Lemma silent_emit e : (forall c, e <> CallUpdate c) -> silent (emit e).
Proof.
  intros He s. unfold emit. simpl. rewrite updates_app. simpl.
  destruct e as [| | | | |c]; try (rewrite app_nil_r; reflexivity). now destruct (He c).
Qed.

#[local] Hint Resolve silent_ret silent_getCR silent_getFlag silent_putCR silent_putFlag
  silent_byPointer : silent.
#[local] Hint Extern 1 (silent (emit _)) => (apply silent_emit; discriminate) : silent.

(** Splits a [silent] goal along the shape of the step. *)
Ltac silence :=
  repeat first
    [ progress auto with silent
    | apply silent_bind; [|intros]
    | match goal with
      | |- silent (match ?x with _ => _ end) => destruct x
      | |- silent (let '(_, _) := ?x in _) => destruct x
      end ].

Lemma silent_updateCondition type status msg : silent (updateCondition type status msg).
Proof. unfold updateCondition. silence. Qed.

#[local] Hint Resolve silent_updateCondition : silent.

Lemma silent_createOrUpdateResources env : silent (createOrUpdateResources env).
Proof. unfold createOrUpdateResources. silence. Qed.

Lemma silent_manage env : silent (manage env).
Proof.
  unfold manage, CreateOrUpdateResources, conditionRemoved, conditionAvailable,
    conditionProgressing, conditionFailing.
  pose proof (silent_createOrUpdateResources env). silence.
Qed.

Lemma silent_resolveHostname env applyError : silent (resolveHostname env applyError).
Proof. unfold resolveHostname. silence. Qed.

Lemma silent_settle env : silent (settle env).
Proof.
  unfold settle.
  pose proof (silent_manage env). pose proof (silent_resolveHostname env). silence.
Qed.

(** ** The apply path *)

Ltac run := unfold byPointer, getCR, getFlag, putCR, putFlag, emit, mbind, M_bind, mret, M_ret.

Lemma createOrUpdateResources_error env s c0 b0 c1 verr st r :
  appendFinalizer env (cr s) (statusChanged s) = (c0, b0) ->
  verifyResource env c0 = (c1, verr) ->
  NewDriver env (Name (Meta c1)) (DeploymentNamespace env) (Storage (Spec c1)) = (st, r) ->
  (createOrUpdateResources env s).1 =
    match verr with
    | Some msg => Some (Errorf ("unable to complete resource: " +:+ msg))
    | None =>
        match r with
        | Err ErrStorageNotConfigured => Some (permanentError ErrStorageNotConfigured)
        | Err e => Some (Errorf ("unable to create storage driver: " +:+ Error e))
        | Ok d =>
            let '(c2, b2, v) := ValidateConfiguration env d (withStorage st c1) b0 in
            match v with
            | Some msg => Some (permanentError (Errorf ("invalid configuration: " +:+ msg)))
            | None => External <$> (Apply env c2 b2).2
            end
        end
    end.
Proof.
  intros Ha Hv Hn. unfold createOrUpdateResources. run.
  rewrite Ha. cbn. rewrite Hv. cbn.
  destruct verr as [vmsg|]; [reflexivity|].
  rewrite Hn. cbn.
  destruct r as [d|[]]; try reflexivity. cbn.
  destruct (ValidateConfiguration env d (withStorage st c1) b0) as [[c2 b2] [vmsg|]];
    [reflexivity|]. cbn.
  destruct (Apply env c2 b2) as [[c3 b3] [amsg|]]; reflexivity.
Qed.

(** C4 (as amended): [createOrUpdateResources] wraps in [permanentError]
    exactly the [ErrStorageNotConfigured] sentinel coming out of the
    resolver and a failure of [ValidateConfiguration]; every other failure
    is returned as a plain error: a [verifyResource] failure, any other
    resolver error (the one for several configured backends included), and
    a failure of the generator's [Apply]. *)
Theorem C4_permanent_classification env s c0 b0 c1 verr st r :
  appendFinalizer env (cr s) (statusChanged s) = (c0, b0) ->
  verifyResource env c0 = (c1, verr) ->
  NewDriver env (Name (Meta c1)) (DeploymentNamespace env) (Storage (Spec c1)) = (st, r) ->
  let err := (createOrUpdateResources env s).1 in
  (forall msg, verr = Some msg ->
     err = Some (Errorf ("unable to complete resource: " +:+ msg))) /\
  (verr = None -> r = Err ErrStorageNotConfigured ->
     err = Some (permanentError ErrStorageNotConfigured)) /\
  (verr = None -> forall e, r = Err e -> e <> ErrStorageNotConfigured ->
     err = Some (Errorf ("unable to create storage driver: " +:+ Error e))) /\
  (verr = None -> forall d c2 b2 msg, r = Ok d ->
     ValidateConfiguration env d (withStorage st c1) b0 = (c2, b2, Some msg) ->
     err = Some (permanentError (Errorf ("invalid configuration: " +:+ msg)))) /\
  (verr = None -> forall d c2 b2 c3 b3 msg, r = Ok d ->
     ValidateConfiguration env d (withStorage st c1) b0 = (c2, b2, None) ->
     Apply env c2 b2 = (c3, b3, Some msg) ->
     err = Some (External msg)) /\
  (forall e, err = Some e -> isPermanent e = true ->
     e = permanentError ErrStorageNotConfigured \/
     exists msg, e = permanentError (Errorf ("invalid configuration: " +:+ msg))).
Proof.
  intros Ha Hv Hn err. subst err.
  rewrite (createOrUpdateResources_error env s c0 b0 c1 verr st r Ha Hv Hn).
  repeat split.
  - intros msg ->. reflexivity.
  - intros -> ->. reflexivity.
  - intros -> e -> He. destruct e; [now destruct He | reflexivity ..].
  - intros -> d c2 b2 msg -> ->. reflexivity.
  - intros -> d c2 b2 c3 b3 msg -> -> ->. reflexivity.
  - intros e He Hp. destruct verr as [vmsg|].
    { injection He as <-. discriminate. }
    destruct r as [d|e'].
    + destruct (ValidateConfiguration env d (withStorage st c1) b0) as [[c2 b2] [vmsg|]].
      * injection He as <-. right. eexists. reflexivity.
      * destruct (Apply env c2 b2) as [[c3 b3] [amsg|]]; [|discriminate].
        injection He as <-. discriminate.
    + destruct e'; injection He as <-; try discriminate. left. reflexivity.
Qed.

Lemma C4_permanent_classification_witness :
  (createOrUpdateResources (cluster (Got (Some ambiguous)) unchanged None) (start ambiguous)).1
  = Some (Errorf ("unable to create storage driver: "
                  +:+ "exactly one storage type should be configured at the same time, got 2: [S3 GCS]")).
Proof.
  pose proof (C4_permanent_classification
                (cluster (Got (Some ambiguous)) unchanged None) (start ambiguous)
                ambiguous false ambiguous None s3_and_gcs
                (Err (Errorf "exactly one storage type should be configured at the same time, got 2: [S3 GCS]"))
                eq_refl eq_refl eq_refl) as (_ & _ & H & _).
  apply (H eq_refl _ eq_refl). discriminate.
Defined.

(** C4 as stated fails: with S3 and GCS both configured the resolver
    reports the ambiguity, and the apply path returns it wrapped in a plain
    error, not in [permanentError]. *)
Lemma C4_counterexample :
  let env := cluster (Got (Some ambiguous)) unchanged None in
  populated (Storage (Spec ambiguous)) = [BS3; BGCS] /\
  exists e,
    (createOrUpdateResources env (start ambiguous)).1 = Some e /\
    Error e = "unable to create storage driver: exactly one storage type should be configured at the same time, got 2: [S3 GCS]" /\
    isPermanent e = false.
Proof. split; [reflexivity|]. eexists. repeat split. Qed.

(** ** Event filtering *)

(** C6: a watch event that carries the managed object itself, with a
    fingerprint of spec and status equal to the one stored in its checksum
    annotation, leaves the work queue as it is. *)
Theorem C6_self_echo_dropped env action c d q :
  Checksum env (Spec c) (Status c) = Ok d ->
  Annotations (Meta c) !! ChecksumOperatorAnnotation env = Some d ->
  Handle env action (ImageRegistryObject c) q = q.
Proof.
  intros Hd Ha. unfold Handle. rewrite Hd, Ha.
  destruct (decide (d = d)); [reflexivity | congruence].
Qed.

Lemma C6_self_echo_dropped_witness :
  Handle (cluster (Got (Some settled)) unchanged None) "update" (ImageRegistryObject settled) idle
  = idle.
Proof.
  apply (C6_self_echo_dropped (cluster (Got (Some settled)) unchanged None) "update" settled
           "state=Managed;backends=[S3];conditions=[Removed];generation=1;hostname=image-registry.openshift-image-registry.svc.cluster.local:5000").
  - reflexivity.
  - reflexivity.
Defined.

(** ** The reconcile pass *)

(** C7: when the fetched object carries a deletion timestamp, [sync] calls
    [finalizeResources] and returns its result; nothing of the
    management-state switch or of what follows it runs, whatever
    [Spec.ManagementState] is. *)
Theorem C7_deletion_before_switch env c t :
  NewForConfig env = None ->
  Get env (resourceName env (DeploymentNamespace env)) = Got (Some c) ->
  DeletionTimestamp (Meta c) = Some t ->
  sync env = (Returned (finalizeResources env c), [CallFinalizeResources c]).
Proof. intros Hc Hg Hd. unfold sync. rewrite Hc, Hg, Hd. reflexivity. Qed.

Lemma C7_deletion_before_switch_witness :
  sync (cluster (Got (Some deleting)) unchanged None)
  = (Returned None, [CallFinalizeResources deleting]).
Proof.
  apply (C7_deletion_before_switch (cluster (Got (Some deleting)) unchanged None) deleting
           1546300800%Z); reflexivity.
Defined.

(** C10: when fetching the managed object fails with NotFound, [sync]
    returns nil and has called nothing (no apply, no teardown, no status
    write); the event processor then forgets the item and schedules no
    retry. *)
Theorem C10_not_found_is_success env c err key q :
  NewForConfig env = None ->
  Get env (resourceName env (DeploymentNamespace env)) = GetFailed c err ->
  IsNotFound err = true ->
  sync env = (Returned None, []) /\
  processItem env (ItemString key) q
    = (Returned None, Done (ItemString key) (Forget (ItemString key) q), []) /\
  delayed (Done (ItemString key) (Forget (ItemString key) q)) = delayed q /\
  failures (Done (ItemString key) (Forget (ItemString key) q)) !! key = None.
Proof.
  intros Hc Hg Hn.
  assert (Hs : sync env = (Returned None, [])).
  { unfold sync. rewrite Hc, Hg, Hn. reflexivity. }
  split; [exact Hs|]. split; [|split].
  - unfold processItem. rewrite Hs. reflexivity.
  - reflexivity.
  - simpl. apply lookup_delete_eq.
Qed.

Lemma C10_not_found_is_success_witness :
  sync (cluster notFound unchanged None) = (Returned None, []) /\
  (processItem (cluster notFound unchanged None) (ItemString WORKQUEUE_KEY) idle).1.2
  = {| delayed := []; failures := ∅; processing := [] |}.
Proof.
  destruct (C10_not_found_is_success (cluster notFound unchanged None)
              (registry (OtherState EmptyString) zeroStorage ∅)
              {| Reason := StatusReasonNotFound;
                 Message := "imageregistries.imageregistry.operator.openshift.io not found" |}
              WORKQUEUE_KEY idle eq_refl eq_refl eq_refl) as (Hs & Hp & _).
  split; [exact Hs|]. rewrite Hp. reflexivity.
Defined.

(** *** Conditions *)

Lemma withConditions_id c : withConditions (Conditions (Status c)) c = c.
Proof. destruct c as [m sp [cs og h]]. reflexivity. Qed.

(** Setting a condition stores it, touches nothing else and calls nothing. *)
Lemma updateCondition_run type status msg s :
  exists b,
    updateCondition type status msg s =
      (tt, {| cr := withConditions
                      (<[type := {| cond_Status := status; cond_Message := msg |}]>
                         (Conditions (Status (cr s)))) (cr s);
              statusChanged := b;
              trace := trace s |}).
Proof.
  unfold updateCondition. run. cbn.
  destruct (decide (Conditions (Status (cr s)) !! type
                    = Some {| cond_Status := status; cond_Message := msg |})) as [Heq|Hne].
  - exists (statusChanged s). rewrite (insert_id _ _ _ Heq), withConditions_id.
    destruct s; reflexivity.
  - exists true. reflexivity.
Qed.

Ltac set_condition :=
  match goal with
  | |- context [updateCondition ?t ?st ?m ?s] =>
      let b := fresh "b" in
      let Hb := fresh "Hb" in
      destruct (updateCondition_run t st m s) as [b Hb]; rewrite Hb; clear Hb; cbn
  end.

(** C8 (as amended): in the [Removed] branch, after a successful teardown
    the object's conditions are Removed=true, Available=false,
    Progressing=false and Failing=false; after a failed teardown the
    cluster operator status is told Failing=true with the text "unable to
    remove registry", and on the object only Progressing is set, to true
    with the text "unable to remove objects: " followed by the error; the
    object's Failing condition is left as it was. *)
Theorem C8_removed_conditions env s c' rerr :
  SpecManagementState (Spec (cr s)) = Removed ->
  RemoveResources env (cr s) = (c', rerr) ->
  let s' := (manage env s).2 in
  let conds := Conditions (Status (cr s')) in
  let on := {| cond_Status := ConditionTrue; cond_Message := EmptyString |} in
  let off := {| cond_Status := ConditionFalse; cond_Message := EmptyString |} in
  (manage env s).1 = None /\
  match rerr with
  | None =>
      conds !! "Removed" = Some on /\
      conds !! "Available" = Some off /\
      conds !! "Progressing" = Some off /\
      conds !! "Failing" = Some off /\
      trace s' = trace s ++ [CallRemoveResources (cr s)]
  | Some msg =>
      conds = <["Progressing" := {| cond_Status := ConditionTrue;
                                    cond_Message := "unable to remove objects: " +:+ msg |}]>
                (Conditions (Status c')) /\
      conds !! "Failing" = Conditions (Status c') !! "Failing" /\
      trace s' = (trace s ++ [CallRemoveResources (cr s)])
                 ++ [CallClusterStatusUpdate "Failing" ConditionTrue "unable to remove registry"]
  end.
Proof.
  intros Hst Hr. cbv zeta.
  unfold manage, conditionRemoved, conditionAvailable, conditionProgressing, conditionFailing.
  run. cbn. rewrite Hst. cbn. rewrite Hr. cbn.
  destruct rerr as [msg|]; cbn.
  - set_condition. repeat split. apply lookup_insert_ne. discriminate.
  - do 4 set_condition. repeat split; simplify_map_eq; reflexivity.
Qed.

Lemma C8_removed_conditions_witness :
  let s' := (manage (cluster (Got (Some removing)) unchanged None) (start removing)).2 in
  Conditions (Status (cr s')) !! "Removed"
    = Some {| cond_Status := ConditionTrue; cond_Message := EmptyString |} /\
  Conditions (Status (cr s')) !! "Available"
    = Some {| cond_Status := ConditionFalse; cond_Message := EmptyString |}.
Proof.
  destruct (C8_removed_conditions (cluster (Got (Some removing)) unchanged None)
              (start removing) removing None eq_refl eq_refl) as (_ & H1 & H2 & _).
  split; [exact H1 | exact H2].
Defined.

(** C8 as stated fails: the teardown fails, and after the switch the
    object has Progressing=true with the error text but no Failing
    condition; Failing=true went to the cluster operator status, with a
    fixed text. *)
Lemma C8_counterexample :
  let env := cluster (Got (Some removing)) unchanged (Some "bucket not empty") in
  let s' := (manage env (start removing)).2 in
  SpecManagementState (Spec removing) = Removed /\
  RemoveResources env removing = (removing, Some "bucket not empty") /\
  Conditions (Status (cr s')) !! "Progressing"
    = Some {| cond_Status := ConditionTrue;
              cond_Message := "unable to remove objects: bucket not empty" |} /\
  Conditions (Status (cr s')) !! "Failing" = None /\
  trace s' = [CallRemoveResources removing;
              CallClusterStatusUpdate "Failing" ConditionTrue "unable to remove registry"] /\
  (forall w, w ∈ updates (sync env).2 -> Conditions (Status w) !! "Failing" = None).
Proof.
  repeat split. intros w Hw.
  assert (H : updates (sync (cluster (Got (Some removing)) unchanged (Some "bucket not empty"))).2
              = [cr (writeBack (cluster (Got (Some removing)) unchanged (Some "bucket not empty"))
                       (settle (cluster (Got (Some removing)) unchanged (Some "bucket not empty"))
                          (start removing)).2).2]) by reflexivity.
  rewrite H in Hw. apply list_elem_of_singleton in Hw. subst w. reflexivity.
Qed.

(** *** The status write *)

Lemma addImageRegistryChecksum_stored env c d :
  Checksum env (Spec c) (Status c) = Ok d ->
  Spec (addImageRegistryChecksum env c) = Spec c /\
  Status (addImageRegistryChecksum env c) = Status c /\
  Annotations (Meta (addImageRegistryChecksum env c)) !! ChecksumOperatorAnnotation env = Some d.
Proof.
  intros Hd. unfold addImageRegistryChecksum. rewrite Hd. cbn.
  repeat split. apply lookup_insert_eq.
Qed.

Lemma addImageRegistryChecksum_fingerprint env c :
  Checksum env (Spec (addImageRegistryChecksum env c)) (Status (addImageRegistryChecksum env c))
  = Checksum env (Spec c) (Status c).
Proof.
  unfold addImageRegistryChecksum.
  destruct (Checksum env (Spec c) (Status c)) eqn:E; cbn; exact E.
Qed.

(** C5 (as amended): a pass that reaches its end writes the object back
    exactly when the [statusChanged] flag is set after [syncStatus]; no
    fingerprint is compared.  What is written is the object with
    [ObservedGeneration] set to its generation and the checksum annotation
    refreshed, so that the annotation of a written object holds the
    fingerprint of its own spec and status.  With the flag unset, and on
    every early exit, nothing is written. *)
Theorem C5_write_gated_by_flag env c :
  NewForConfig env = None ->
  Get env (resourceName env (DeploymentNamespace env)) = Got (Some c) ->
  DeletionTimestamp (Meta c) = None ->
  let exit := (settle env (start c)).1 in
  let s := (settle env (start c)).2 in
  updates (sync env).2 =
    match exit with
    | Some _ => []
    | None =>
        if statusChanged s
        then [addImageRegistryChecksum env
                (withObservedGeneration (Generation (Meta (cr s))) (cr s))]
        else []
    end /\
  (forall w d, w ∈ updates (sync env).2 ->
     Checksum env (Spec w) (Status w) = Ok d ->
     Annotations (Meta w) !! ChecksumOperatorAnnotation env = Some d).
Proof.
  intros Hc Hg Hd. cbv zeta.
  pose proof (silent_settle env (start c)) as Hq.
  assert (Hu : updates (sync env).2 =
    match (settle env (start c)).1 with
    | Some _ => []
    | None =>
        if statusChanged (settle env (start c)).2
        then [addImageRegistryChecksum env
                (withObservedGeneration (Generation (Meta (cr (settle env (start c)).2)))
                   (cr (settle env (start c)).2))]
        else []
    end).
  { unfold sync. rewrite Hc, Hg, Hd.
    destruct (settle env (start c)) as [[out|] s]; cbn in *; [exact Hq|].
    unfold writeBack. run. cbn.
    destruct (statusChanged s); cbn; [|exact Hq].
    rewrite updates_app, Hq. reflexivity. }
  split; [exact Hu|].
  intros w d Hw Hd'. rewrite Hu in Hw.
  destruct ((settle env (start c)).1); [set_solver|].
  destruct (statusChanged (settle env (start c)).2); [|set_solver].
  apply list_elem_of_singleton in Hw. subst w.
  rewrite addImageRegistryChecksum_fingerprint in Hd'.
  apply (addImageRegistryChecksum_stored env _ d Hd').
Qed.

Lemma C5_write_gated_by_flag_witness :
  updates (sync (cluster (Got (Some settled)) unchanged None)).2 = [].
Proof.
  destruct (C5_write_gated_by_flag (cluster (Got (Some settled)) unchanged None) settled
              eq_refl eq_refl eq_refl) as [H _].
  rewrite H. reflexivity.
Defined.

(** C5 as stated fails: the fetched object already carries the fingerprint
    of its spec and status, the generator only had to recreate a child
    resource and raised the flag, and the pass writes the object back
    although the fingerprint of what it writes equals the stored one. *)
Lemma C5_counterexample :
  let env := cluster (Got (Some settled)) recreated None in
  Get env (resourceName env (DeploymentNamespace env)) = Got (Some settled) /\
  updates (sync env).2 = [settled] /\
  exists d,
    Checksum env (Spec settled) (Status settled) = Ok d /\
    Annotations (Meta settled) !! ChecksumOperatorAnnotation env = Some d.
Proof. repeat split. eexists. split; reflexivity. Qed.

(** ** The event processor *)

(** An apply error does not end the pass: [sync] hands it to [syncStatus]
    and returns nil. *)
Lemma sync_swallows_applyError env c e :
  NewForConfig env = None ->
  Get env (resourceName env (DeploymentNamespace env)) = Got (Some c) ->
  DeletionTimestamp (Meta c) = None ->
  (manage env (start c)).1 = Some e ->
  (forall name ns e', (deploymentsGet env name ns).2 = Some e' -> IsNotFound e' = true) ->
  (sync env).1 = Returned None.
Proof.
  intros Hc Hg Hd Hm Hdep. unfold sync. rewrite Hc, Hg, Hd.
  unfold settle. run.
  destruct (manage env (start c)) as [ae s1]. cbn in Hm. subst ae. cbn.
  specialize (Hdep (Name (Meta (cr s1))) (DeploymentNamespace env)).
  destruct (deploymentsGet env (Name (Meta (cr s1))) (DeploymentNamespace env))
    as [dep [e'|]]; cbn in *.
  - rewrite (Hdep e' eq_refl). cbn.
    destruct (syncStatus env (cr s1) None (Some e) (statusChanged s1)); reflexivity.
  - destruct (syncStatus env (cr s1) dep (Some e) (statusChanged s1)); reflexivity.
Qed.

(** C9 (as amended): the event processor re-adds the constant key with
    [AddRateLimited] (one more recorded failure, hence a longer delay)
    exactly when [sync] returns an error, and calls [Forget] (failure count
    cleared) when [sync] returns nil.  An apply error, permanent or not,
    does not make [sync] return an error: [sync] passes it to [syncStatus]
    and, unless the deployment or service lookup fails, returns nil, so the
    item is forgotten and not re-added. *)
Theorem C9_requeue_follows_sync_result env key q :
  (forall e tr, sync env = (Returned (Some e), tr) ->
     let q' := Done (ItemString key) (AddRateLimited WORKQUEUE_KEY q) in
     let n := default 0%nat (failures q !! WORKQUEUE_KEY) in
     processItem env (ItemString key) q
       = (Returned (Some (Errorf ("unable to sync: " +:+ Error e +:+ ", requeuing"))), q', tr) /\
     delayed q' = delayed q ++ [(WORKQUEUE_KEY, n)] /\
     failures q' !! WORKQUEUE_KEY = Some (S n)) /\
  (forall tr, sync env = (Returned None, tr) ->
     let q' := Done (ItemString key) (Forget (ItemString key) q) in
     processItem env (ItemString key) q = (Returned None, q', tr) /\
     delayed q' = delayed q /\
     failures q' !! key = None) /\
  (forall c e,
     NewForConfig env = None ->
     Get env (resourceName env (DeploymentNamespace env)) = Got (Some c) ->
     DeletionTimestamp (Meta c) = None ->
     (manage env (start c)).1 = Some e ->
     (forall name ns e', (deploymentsGet env name ns).2 = Some e' -> IsNotFound e' = true) ->
     (sync env).1 = Returned None /\
     (processItem env (ItemString key) q).1
       = (Returned None, Done (ItemString key) (Forget (ItemString key) q))).
Proof.
  split; [|split].
  - intros e tr Hs. cbv zeta. unfold processItem. rewrite Hs.
    repeat split. cbn. apply lookup_insert_eq.
  - intros tr Hs. cbv zeta. unfold processItem. rewrite Hs.
    repeat split. cbn. apply lookup_delete_eq.
  - intros c e Hc Hg Hd Hm Hdep.
    pose proof (sync_swallows_applyError env c e Hc Hg Hd Hm Hdep) as Hs.
    split; [exact Hs|]. unfold processItem.
    destruct (sync env) as [out tr]. cbn in Hs. subst out. reflexivity.
Qed.

Lemma C9_requeue_follows_sync_result_witness :
  (sync (cluster (Got (Some settled)) refused None)).1 = Returned None.
Proof.
  destruct (C9_requeue_follows_sync_result (cluster (Got (Some settled)) refused None)
              WORKQUEUE_KEY idle) as (_ & _ & H).
  destruct (H settled (External "connection refused") eq_refl eq_refl eq_refl eq_refl) as [Hs _].
  - intros name ns e' He. discriminate He.
  - exact Hs.
Defined.

(** C9 as stated fails: the generator's [Apply] fails with a transient
    error, [sync] still returns nil, and the event processor forgets the
    item: the failure count is cleared and no retry is scheduled. *)
Lemma C9_counterexample :
  let env := cluster (Got (Some settled)) refused None in
  (manage env (start settled)).1 = Some (External "connection refused") /\
  (sync env).1 = Returned None /\
  (processItem env (ItemString WORKQUEUE_KEY) idle).1
    = (Returned None, {| delayed := []; failures := ∅; processing := [] |}).
Proof. repeat split. Qed.

(** ** More on the resolver *)

(** [newDriver] answers with the [ErrStorageNotConfigured] sentinel exactly
    when no variant is populated, whatever the PVC constructor does. *)
Theorem newDriver_unconfigured_iff pvc_err cfg k l :
  newDriver pvc_err cfg k l = Err ErrStorageNotConfigured <-> populated cfg = [].
Proof.
  unfold newDriver, pvc_NewDriver.
  destruct cfg as [[e|] [s|] [w|] [g|] [p|] [a|]]; cbn;
    try destruct (pvc_err p k); cbn; split; intros H; solve [discriminate H | reflexivity].
Qed.

(** A driver that [newDriver] returns is the driver of the one populated
    variant, built from that variant's parameters. *)
Theorem newDriver_ok_single pvc_err cfg k l d :
  newDriver pvc_err cfg k l = Ok d ->
  populated cfg = [drv_kind d] /\ variant cfg (drv_kind d) = Some (drv_config d).
Proof.
  unfold newDriver, pvc_NewDriver.
  destruct cfg as [[e|] [s|] [w|] [g|] [p|] [a|]]; cbn;
    try destruct (pvc_err p k); cbn; intros H;
    solve [discriminate H | injection H as <-; split; reflexivity].
Qed.

Lemma newDriver_ok_single_witness :
  populated only_s3 = [BS3] /\ variant only_s3 BS3 = Some [("bucket", "registry")].
Proof.
  apply (newDriver_ok_single pvc_up only_s3 kube mkListers
           {| drv_kind := BS3; drv_config := [("bucket", "registry")] |}).
  reflexivity.
Defined.

(** [NewDriver] writes through [cfg] only when nothing is configured: with
    at least one variant populated the configuration is left as it is and
    the result is the one of the first [newDriver] call; the install config
    plays no part. *)
Theorem NewDriver_keeps_configured pvc_err gic cfg k l :
  populated cfg <> [] ->
  storage.NewDriver pvc_err gic cfg k l = (cfg, newDriver pvc_err cfg k l).
Proof.
  intros Hp. apply NewDriver_not_unconfigured; [reflexivity|].
  intros H. apply Hp, (newDriver_unconfigured_iff pvc_err cfg k l), H.
Qed.

Lemma NewDriver_keeps_configured_witness :
  storage.NewDriver pvc_down no_install_config s3_and_pvc kube mkListers
  = (s3_and_pvc, newDriver pvc_down s3_and_pvc kube mkListers).
Proof.
  apply (NewDriver_keeps_configured pvc_down no_install_config s3_and_pvc kube mkListers).
  discriminate.
Defined.

(** What [getPlatformStorage] returns has at most one variant populated,
    with empty parameters, and never GCS or PVC; when the install config
    cannot be read it is the zero configuration, next to the error. *)
Theorem getPlatformStorage_at_most_one gic k :
  let cfg := (getPlatformStorage gic k).1 in
  (length (populated cfg) <= 1)%nat /\
  GCS cfg = None /\ PVC cfg = None /\
  (forall b c, variant cfg b = Some c -> c = []) /\
  (forall e, gic k = Err e -> getPlatformStorage gic k = (zeroStorage, Some e)).
Proof.
  cbv zeta. unfold getPlatformStorage.
  destruct (gic k) as [[[li aw az os]]|e];
    [destruct li as [[]|], aw as [[]|], az as [[]|], os as [[]|]|]; cbn;
    repeat split;
    solve [ reflexivity | vm_compute; lia | intros [] c H; cbn in H; congruence
          | intros e' H; congruence ].
Qed.

(** With nothing configured and an install config that cannot be read,
    [NewDriver] makes no second attempt: it returns a fresh error that
    carries the text of the failure, not the sentinel. *)
Theorem NewDriver_install_config_unreadable pvc_err gic cfg k l e :
  populated cfg = [] ->
  gic k = Err e ->
  exists msg,
    storage.NewDriver pvc_err gic cfg k l = (zeroStorage, Err (Errorf msg)) /\
    msg = "unable to get storage configuration from cluster install config: " +:+ Error e /\
    mentions msg (Error e).
Proof.
  intros Hp He. eexists. split; [|split; [reflexivity|]].
  - apply NewDriver_install_config_error; [|exact He].
    apply newDriver_unconfigured_iff, Hp.
  - exists "unable to get storage configuration from cluster install config: ", EmptyString.
    f_equal. clear. induction (Error e) as [|x t IH]; [reflexivity|].
    change (String x t = String x (t +:+ EmptyString)). now rewrite <- IH.
Qed.

Lemma NewDriver_install_config_unreadable_witness :
  storage.NewDriver pvc_up no_install_config zeroStorage kube mkListers
  = (zeroStorage,
     Err (Errorf "unable to get storage configuration from cluster install config: install config not found")).
Proof.
  destruct (NewDriver_install_config_unreadable pvc_up no_install_config zeroStorage kube
              mkListers (External "install config not found") eq_refl eq_refl)
    as (msg & H & -> & _).
  exact H.
Defined.

(** [NewDriver] ends with the sentinel exactly when nothing is configured,
    the install config is read, and it names none of the platforms that
    [getPlatformStorage] knows. *)
Theorem NewDriver_unconfigured_iff pvc_err gic cfg k l :
  (storage.NewDriver pvc_err gic cfg k l).2 = Err ErrStorageNotConfigured <->
  populated cfg = [] /\
  exists ic, gic k = Ok ic /\
    Libvirt (InstallPlatform ic) = None /\ AWS (InstallPlatform ic) = None /\
    PlatformAzure (InstallPlatform ic) = None /\ OpenStack (InstallPlatform ic) = None.
Proof.
  split.
  - intros H. destruct (decide (populated cfg = [])) as [Hp|Hp].
    + split; [exact Hp|].
      apply (newDriver_unconfigured_iff pvc_err cfg k l) in Hp.
      unfold storage.NewDriver, getPlatformStorage in H. rewrite Hp in H.
      destruct (gic k) as [[[li aw az os]]|e]; [|discriminate H].
      destruct li as [[]|], aw as [[]|], az as [[]|], os as [[]|]; cbn in H;
        try discriminate H.
      eexists. repeat split.
    + rewrite (NewDriver_keeps_configured pvc_err gic cfg k l Hp) in H. cbn in H.
      apply newDriver_unconfigured_iff in H. contradiction.
  - intros (Hp & [[li aw az os]] & Hg & H1 & H2 & H3 & H4). cbn in *. subst.
    rewrite (NewDriver_unknown_platform pvc_err gic cfg k l); [reflexivity | | exact Hg].
    apply newDriver_unconfigured_iff, Hp.
Qed.

(** When [NewDriver] returns a driver, the configuration it leaves behind
    has exactly that driver's variant populated, with the driver's
    parameters: an inferred backend is written back for the caller. *)
Theorem NewDriver_ok_configuration pvc_err gic cfg k l cfg' d :
  storage.NewDriver pvc_err gic cfg k l = (cfg', Ok d) ->
  populated cfg' = [drv_kind d] /\ variant cfg' (drv_kind d) = Some (drv_config d).
Proof.
  intros H. destruct (decide (populated cfg = [])) as [Hp|Hp].
  - apply (newDriver_unconfigured_iff pvc_err cfg k l) in Hp.
    unfold storage.NewDriver in H. rewrite Hp in H.
    destruct (getPlatformStorage gic k) as [c [e|]]; [discriminate H|].
    injection H as <- H. apply (newDriver_ok_single pvc_err c k l d H).
  - rewrite (NewDriver_keeps_configured pvc_err gic cfg k l Hp) in H.
    injection H as <- H. apply (newDriver_ok_single pvc_err cfg k l d H).
Qed.

Lemma NewDriver_ok_configuration_witness :
  populated {| EmptyDir := None; S3 := None; Swift := Some []; GCS := None;
               PVC := None; Azure := None |} = [BSwift].
Proof.
  apply (NewDriver_ok_configuration pvc_up (fun _ => Ok (descriptor POpenStack)) zeroStorage
           kube mkListers _ {| drv_kind := BSwift; drv_config := [] |} eq_refl).
Defined.

(** ** More on event filtering *)

Lemma AddRateLimited_changes key q : AddRateLimited key q <> q.
Proof.
  intros H. apply (f_equal (fun x => length (delayed x))) in H.
  cbn in H. rewrite length_app in H. cbn in H. lia.
Qed.

(** Whatever is delivered, [Handle] either leaves the queue alone or adds
    the one constant key; it never adds anything else. *)
Theorem Handle_adds_only_the_key env action o q :
  Handle env action o q = q \/ Handle env action o q = AddRateLimited WORKQUEUE_KEY q.
Proof.
  unfold Handle.
  destruct o as [c|m|[m|]|]; cbn; auto.
  - destruct (Annotations (Meta c) !! ChecksumOperatorAnnotation env); auto.
    destruct (decide _); auto.
  - destruct (GetControllerOf m); auto. destruct (decide _); auto.
  - destruct (GetControllerOf m); auto. destruct (decide _); auto.
Qed.

(** An event for the managed object is dropped exactly when the checksum
    annotation is present and equal to the computed fingerprint, an empty
    text standing in for a fingerprint that cannot be computed.  So an
    object without the annotation is always enqueued. *)
Theorem Handle_managed_object_iff env action c q :
  Handle env action (ImageRegistryObject c) q = q <->
  Annotations (Meta c) !! ChecksumOperatorAnnotation env
  = Some (match Checksum env (Spec c) (Status c) with
          | Ok d => d
          | Err _ => EmptyString
          end).
Proof.
  unfold Handle. cbn.
  destruct (Annotations (Meta c) !! ChecksumOperatorAnnotation env) as [cur|].
  - destruct (decide _) as [Heq|Hne].
    + split; [intros _; now rewrite Heq | reflexivity].
    + split; [intros H; now apply AddRateLimited_changes in H | intros [= H]; congruence].
  - split; [intros H; now apply AddRateLimited_changes in H | discriminate].
Qed.

(** An event for any other object, delivered directly or recovered from a
    tombstone, is enqueued exactly when the object's controller reference
    is of kind ImageRegistry in the operator's API version; a tombstone
    that holds no object and a value of another type are dropped. *)
Theorem Handle_owned_object_iff env action meta q :
  (Handle env action (OwnedObject meta) q = AddRateLimited WORKQUEUE_KEY q <->
   exists r, GetControllerOf meta = Some r /\ ref_Kind r = "ImageRegistry" /\
             ref_APIVersion r = SchemeGroupVersion env) /\
  Handle env action (Tombstone (Some meta)) q = Handle env action (OwnedObject meta) q /\
  Handle env action (Tombstone None) q = q /\
  Handle env action NotAnObject q = q.
Proof.
  repeat split; unfold Handle; cbn.
  - destruct (GetControllerOf meta) as [r|].
    + destruct (decide _) as [Hd|Hd].
      * intros H. symmetry in H. now apply AddRateLimited_changes in H.
      * intros _. exists r. split; [reflexivity|].
        destruct (decide (ref_Kind r = "ImageRegistry")),
                 (decide (ref_APIVersion r = SchemeGroupVersion env)); tauto.
    + intros H. symmetry in H. now apply AddRateLimited_changes in H.
  - intros (r & -> & Hk & Ha).
    destruct (decide _) as [[Hd|Hd]|Hd]; [contradiction | contradiction | reflexivity].
Qed.

(** ** More on the apply path *)

(** The apply path calls the generator's [Apply] only after
    [verifyResource], the resolver and [ValidateConfiguration] have all
    succeeded, and then once, on the object as [ValidateConfiguration] left
    it; when one of the three fails, [Apply] is not called. *)
Theorem Apply_only_after_validation env s c0 b0 c1 verr st r :
  appendFinalizer env (cr s) (statusChanged s) = (c0, b0) ->
  verifyResource env c0 = (c1, verr) ->
  NewDriver env (Name (Meta c1)) (DeploymentNamespace env) (Storage (Spec c1)) = (st, r) ->
  trace (createOrUpdateResources env s).2 =
    trace s ++
    match verr, r with
    | None, Ok d =>
        match ValidateConfiguration env d (withStorage st c1) b0 with
        | (c2, _, None) => [CallApply c2]
        | (_, _, Some _) => []
        end
    | _, _ => []
    end.
Proof.
  intros Ha Hv Hn. unfold createOrUpdateResources. run.
  rewrite Ha. cbn. rewrite Hv. cbn.
  destruct verr as [vmsg|]; [cbn; now rewrite app_nil_r|].
  rewrite Hn. cbn.
  destruct r as [d|[]]; try (cbn; now rewrite app_nil_r). cbn.
  destruct (ValidateConfiguration env d (withStorage st c1) b0) as [[c2 b2] [vmsg|]];
    [cbn; now rewrite app_nil_r|]. cbn.
  destruct (Apply env c2 b2) as [[c3 b3] [amsg|]]; reflexivity.
Qed.

Lemma Apply_only_after_validation_witness :
  trace (createOrUpdateResources (cluster (Got (Some ambiguous)) unchanged None)
           (start ambiguous)).2 = [].
Proof.
  apply (Apply_only_after_validation (cluster (Got (Some ambiguous)) unchanged None)
           (start ambiguous) ambiguous false ambiguous None s3_and_gcs
           (Err (Errorf "exactly one storage type should be configured at the same time, got 2: [S3 GCS]"))
           eq_refl eq_refl eq_refl).
Defined.

Lemma createOrUpdateResources_calls env s :
  exists evs, trace (createOrUpdateResources env s).2 = trace s ++ evs /\
              (evs = [] \/ exists c, evs = [CallApply c]).
Proof.
  destruct (appendFinalizer env (cr s) (statusChanged s)) as [c0 b0] eqn:Ha.
  destruct (verifyResource env c0) as [c1 verr] eqn:Hv.
  destruct (NewDriver env (Name (Meta c1)) (DeploymentNamespace env) (Storage (Spec c1)))
    as [st r] eqn:Hn.
  eexists. split; [apply (Apply_only_after_validation env s c0 b0 c1 verr st r Ha Hv Hn)|].
  destruct verr; [auto|]. destruct r as [d|]; [|auto].
  destruct (ValidateConfiguration env d (withStorage st c1) b0) as [[c2 b2] [?|]]; eauto.
Qed.

(** With the resolver of storage.go behind the apply path: an object with
    no backend configured on a platform that the resolver does not know
    yields the permanent error, while an install config that cannot be read
    yields a plain error that carries the text of the failure. *)
Theorem unconfigured_apply_errors env pvc_err gic k s c0 b0 c1 :
  NewDriver env = resolveWith pvc_err gic k ->
  appendFinalizer env (cr s) (statusChanged s) = (c0, b0) ->
  verifyResource env c0 = (c1, None) ->
  populated (Storage (Spec c1)) = [] ->
  (gic k = Ok {| InstallPlatform := {| Libvirt := None; AWS := None;
                                       PlatformAzure := None; OpenStack := None |} |} ->
   (createOrUpdateResources env s).1 = Some (permanentError ErrStorageNotConfigured)) /\
  (forall e, gic k = Err e ->
   (createOrUpdateResources env s).1
   = Some (Errorf ("unable to create storage driver: "
                   +:+ "unable to get storage configuration from cluster install config: "
                   +:+ Error e))).
Proof.
  intros HN Ha Hv Hp. split.
  - intros Hg.
    rewrite (createOrUpdateResources_error env s c0 b0 c1 None zeroStorage
               (Err ErrStorageNotConfigured) Ha Hv); [reflexivity|].
    rewrite HN. unfold resolveWith.
    apply NewDriver_unknown_platform; [|exact Hg].
    apply newDriver_unconfigured_iff, Hp.
  - intros e Hg.
    rewrite (createOrUpdateResources_error env s c0 b0 c1 None zeroStorage
               (Err (Errorf ("unable to get storage configuration from cluster install config: "
                             +:+ Error e))) Ha Hv); [reflexivity|].
    rewrite HN. unfold resolveWith.
    apply NewDriver_install_config_error; [|exact Hg].
    apply newDriver_unconfigured_iff, Hp.
Qed.

Lemma unconfigured_apply_errors_witness :
  (createOrUpdateResources (cluster (Got (Some unconfigured)) unchanged None)
     (start unconfigured)).1
  = Some (Errorf ("unable to create storage driver: "
                  +:+ "unable to get storage configuration from cluster install config: "
                  +:+ "install config not found")).
Proof.
  destruct (unconfigured_apply_errors (cluster (Got (Some unconfigured)) unchanged None)
              pvc_up no_install_config kube (start unconfigured) unconfigured false unconfigured
              eq_refl eq_refl eq_refl eq_refl) as [_ H].
  apply (H (External "install config not found") eq_refl).
Defined.

(** ** More on the reconcile pass *)

Lemma resolveHostname_trace env applyError s :
  trace (resolveHostname env applyError s).2 = trace s.
Proof.
  unfold resolveHostname. run.
  destruct applyError; [reflexivity|].
  destruct (servicesGet env (ServiceName env) (DeploymentNamespace env)) as [[svc|] [e|]];
    cbn; try (destruct (IsNotFound e)); try reflexivity.
  destruct (svc_Ports svc !! 0%nat); cbn; [|reflexivity].
  destruct (decide _); reflexivity.
Qed.

Lemma settle_trace env s : trace (settle env s).2 = trace (manage env s).2.
Proof.
  unfold settle. run.
  destruct (manage env s) as [ae s1]. cbn.
  destruct (deploymentsGet env (Name (Meta (cr s1))) (DeploymentNamespace env))
    as [dep [e|]]; cbn.
  - destruct (IsNotFound e); cbn; [|reflexivity].
    pose proof (resolveHostname_trace env ae s1) as Ht.
    destruct (resolveHostname env ae s1) as [[out|] s2]; cbn in *; [exact Ht|].
    destruct (syncStatus env (cr s2) None ae (statusChanged s2)); exact Ht.
  - pose proof (resolveHostname_trace env ae s1) as Ht.
    destruct (resolveHostname env ae s1) as [[out|] s2]; cbn in *; [exact Ht|].
    destruct (syncStatus env (cr s2) dep ae (statusChanged s2)); exact Ht.
Qed.

Lemma manage_calls env s :
  exists evs, trace (manage env s).2 = trace s ++ evs /\
    match SpecManagementState (Spec (cr s)) with
    | Removed =>
        evs = CallRemoveResources (cr s)
              :: (if (RemoveResources env (cr s)).2 is Some _
                  then [CallClusterStatusUpdate "Failing" ConditionTrue
                          "unable to remove registry"]
                  else [])
    | Managed => evs = [] \/ exists c, evs = [CallApply c]
    | Unmanaged | OtherState _ => evs = []
    end.
Proof.
  unfold manage, conditionRemoved, conditionAvailable, conditionProgressing, conditionFailing,
    CreateOrUpdateResources.
  run. cbn.
  destruct (SpecManagementState (Spec (cr s))) eqn:Hst; cbn.
  - set_condition. rewrite Hst.
    match goal with
    | |- context [createOrUpdateResources env ?s1] =>
        destruct (createOrUpdateResources_calls env s1) as (evs & Ht & Hevs);
        destruct (createOrUpdateResources env s1) as [ae s2]
    end.
    exists evs. split; [exact Ht | exact Hevs].
  - exists []. split; [now rewrite app_nil_r | reflexivity].
  - destruct (RemoveResources env (cr s)) as [c' [msg|]]; cbn.
    + set_condition. eexists. split; [|reflexivity]. now rewrite <- app_assoc.
    + do 4 set_condition. eexists. split; reflexivity.
  - exists []. split; [now rewrite app_nil_r | reflexivity].
Qed.

Lemma writeBack_trace env s :
  trace (writeBack env s).2 =
    trace s ++
    (if statusChanged s
     then [CallUpdate (addImageRegistryChecksum env
                         (withObservedGeneration (Generation (Meta (cr s))) (cr s)))]
     else []).
Proof.
  unfold writeBack. run. cbn.
  destruct (statusChanged s); cbn; [reflexivity | now rewrite app_nil_r].
Qed.

(** Which state of the fetched object each call of a pass presupposes:
    [Bootstrap] a nil object; [finalizeResources] a deletion timestamp;
    [RemoveResources] no deletion timestamp and the state [Removed]; the
    Failing report to the cluster operator status moreover a failed
    teardown; [Apply] no deletion timestamp and the state [Managed]; the
    status write no deletion timestamp.  [finalizeResources] is tied to no
    management state: an [Unmanaged] object is finalized once it carries a
    deletion timestamp, while [Apply] and [RemoveResources] are never called
    on it. *)
Theorem sync_calls_by_state env ev :
  ev ∈ (sync env).2 ->
  let fetched := Get env (resourceName env (DeploymentNamespace env)) in
  match ev with
  | CallBootstrap => fetched = Got None
  | CallFinalizeResources c => fetched = Got (Some c) /\ DeletionTimestamp (Meta c) <> None
  | CallRemoveResources c =>
      fetched = Got (Some c) /\ DeletionTimestamp (Meta c) = None /\
      SpecManagementState (Spec c) = Removed
  | CallClusterStatusUpdate kind value msg =>
      (exists c, fetched = Got (Some c) /\ DeletionTimestamp (Meta c) = None /\
                 SpecManagementState (Spec c) = Removed /\
                 (RemoveResources env c).2 <> None) /\
      kind = "Failing" /\ value = ConditionTrue /\ msg = "unable to remove registry"
  | CallApply _ =>
      exists c, fetched = Got (Some c) /\ DeletionTimestamp (Meta c) = None /\
                SpecManagementState (Spec c) = Managed
  | CallUpdate _ =>
      exists c, fetched = Got (Some c) /\ DeletionTimestamp (Meta c) = None
  end.
Proof.
  cbv zeta. unfold sync.
  destruct (NewForConfig env); [cbn; set_solver|].
  destruct (Get env (resourceName env (DeploymentNamespace env))) as [[c|]|c err].
  - destruct (DeletionTimestamp (Meta c)) as [t|] eqn:Hd.
    { cbn. intros Hev. apply list_elem_of_singleton in Hev. subst ev.
      split; [reflexivity | congruence]. }
    assert (Hin : forall out tr,
              (let '(exit, s) := settle env (start c) in
               match exit with
               | Some out => (out, trace s)
               | None => (Returned None, trace (writeBack env s).2)
               end) = (out, tr) ->
              ev ∈ tr ->
              ev ∈ trace (manage env (start c)).2 \/ exists w, ev = CallUpdate w).
    { intros out tr. pose proof (settle_trace env (start c)) as Hs.
      destruct (settle env (start c)) as [[o|] s]; cbn in Hs; intros [= <- <-].
      - rewrite Hs. auto.
      - rewrite writeBack_trace, Hs. intros Hev. apply elem_of_app in Hev as [Hev|Hev]; [auto|].
        destruct (statusChanged s); [|set_solver].
        apply list_elem_of_singleton in Hev. eauto. }
    intros Hev.
    match type of Hev with ev ∈ (?p).2 => destruct p as [out tr] eqn:Hp end.
    destruct (Hin out tr eq_refl Hev) as [Hm|[w ->]]; [|eauto].
    destruct (manage_calls env (start c)) as (evs & Ht & Hevs).
    rewrite Ht in Hm. cbn in Hm, Hevs.
    destruct (SpecManagementState (Spec c)) eqn:Hst.
    + destruct Hevs as [->|[a ->]]; [set_solver|].
      apply list_elem_of_singleton in Hm. subst ev. eauto.
    + subst evs. set_solver.
    + subst evs. apply elem_of_cons in Hm as [->|Hm]; [auto|].
      destruct (RemoveResources env c) as [c' [msg|]] eqn:Hr; cbn in Hm; [|set_solver].
      apply list_elem_of_singleton in Hm. subst ev.
      split; [|auto]. exists c. rewrite Hr. cbn. repeat split; congruence.
    + subst evs. set_solver.
  - cbn. intros Hev. apply list_elem_of_singleton in Hev. subst ev. reflexivity.
  - destruct (IsNotFound err); cbn; set_solver.
Qed.

Lemma sync_calls_by_state_witness :
  exists c, Get (cluster (Got (Some settled)) unchanged None) "image-registry" = Got (Some c) /\
            DeletionTimestamp (Meta c) = None /\ SpecManagementState (Spec c) = Managed.
Proof.
  apply (sync_calls_by_state (cluster (Got (Some settled)) unchanged None) (CallApply settled)).
  apply list_elem_of_here.
Defined.

Lemma sync_updates env :
  updates (sync env).2 = [] \/
  exists c s,
    Get env (resourceName env (DeploymentNamespace env)) = Got (Some c) /\
    settle env (start c) = (None, s) /\ statusChanged s = true /\
    (sync env).1 = Returned None /\
    updates (sync env).2
    = [addImageRegistryChecksum env (withObservedGeneration (Generation (Meta (cr s))) (cr s))].
Proof.
  unfold sync.
  destruct (NewForConfig env); [left; reflexivity|].
  destruct (Get env (resourceName env (DeploymentNamespace env))) as [[c|]|c err];
    [|left; reflexivity|destruct (IsNotFound err); left; reflexivity].
  destruct (DeletionTimestamp (Meta c)); [left; reflexivity|].
  pose proof (silent_settle env (start c)) as Hq.
  destruct (settle env (start c)) as [[out|] s] eqn:Hs; cbn in *; [left; exact Hq|].
  rewrite writeBack_trace, updates_app, Hq.
  destruct (statusChanged s) eqn:Hf; [|left; reflexivity].
  right. exists c, s. repeat split; assumption.
Qed.

(** A pass that does not return nil, because a step failed or because it
    panicked, writes nothing back: what it changed on the object in memory
    is dropped. *)
Theorem failed_pass_writes_nothing env :
  (sync env).1 <> Returned None -> updates (sync env).2 = [].
Proof.
  intros Hf. destruct (sync_updates env) as [H|(c & s & _ & _ & _ & Hr & _)];
    [exact H | contradiction].
Qed.

Lemma failed_pass_writes_nothing_witness :
  updates (sync (cluster unreachable recreated None)).2 = [].
Proof.
  apply (failed_pass_writes_nothing (cluster unreachable recreated None)). discriminate.
Defined.

Lemma addImageRegistryChecksum_keeps env c :
  Generation (Meta (addImageRegistryChecksum env c)) = Generation (Meta c) /\
  Status (addImageRegistryChecksum env c) = Status c /\
  Spec (addImageRegistryChecksum env c) = Spec c.
Proof.
  unfold addImageRegistryChecksum.
  destruct (Checksum env (Spec c) (Status c)); repeat split.
Qed.

(** A pass writes the object back at most once, and the object it writes
    has its observed generation equal to its generation. *)
Theorem written_object_observes_generation env :
  (length (updates (sync env).2) <= 1)%nat /\
  forall w, w ∈ updates (sync env).2 ->
    ObservedGeneration (Status w) = Generation (Meta w).
Proof.
  destruct (sync_updates env) as [->|(c & s & _ & _ & _ & _ & ->)].
  - split; [cbn; lia | set_solver].
  - split; [cbn; lia|].
    intros w Hw. apply list_elem_of_singleton in Hw. subst w.
    destruct (addImageRegistryChecksum_keeps env
                (withObservedGeneration (Generation (Meta (cr s))) (cr s))) as (-> & -> & _).
    reflexivity.
Qed.

(** The internal hostname follows the service only while the apply step
    has not failed.  With a service that has a port, the hostname becomes
    name.namespace.svc.cluster.local:port of the first port, the flag is
    raised exactly when that changes the stored hostname, and nothing else
    on the object moves; after an apply error the service is not even
    looked up. *)
Theorem hostname_follows_service env s svc port :
  servicesGet env (ServiceName env) (DeploymentNamespace env) = (Some svc, None) ->
  svc_Ports svc !! 0%nat = Some port ->
  let h := svc_Name svc +:+ "." +:+ svc_Namespace svc +:+ ".svc.cluster.local:"
           +:+ pretty port in
  let s' := (resolveHostname env None s).2 in
  (resolveHostname env None s).1 = None /\
  cr s' = withHostname h (cr s) /\
  statusChanged s'
  = (statusChanged s || negb (bool_decide (InternalRegistryHostname (Status (cr s)) = h))) /\
  (forall e, resolveHostname env (Some e) s = (None, s)).
Proof.
  intros Hsvc Hport. cbv zeta. unfold resolveHostname. run.
  rewrite Hsvc. cbn. rewrite Hport. cbn.
  destruct (decide _) as [Hne|Heq]; cbn.
  - rewrite bool_decide_eq_false_2 by exact Hne. cbn. rewrite orb_true_r. repeat split.
  - apply dec_stable in Heq. rewrite bool_decide_eq_true_2 by exact Heq.
    cbn. rewrite orb_false_r. repeat split.
    rewrite <- Heq. destruct (cr s) as [m sp [cs og hn]]. reflexivity.
Qed.

Lemma hostname_follows_service_witness :
  cr (resolveHostname (cluster (Got (Some unmanaged)) unchanged None) None
        (start (withHostname EmptyString unmanaged))).2
  = unmanaged.
Proof.
  destruct (hostname_follows_service (cluster (Got (Some unmanaged)) unchanged None)
              (start (withHostname EmptyString unmanaged))
              {| svc_Name := "image-registry"; svc_Namespace := "openshift-image-registry";
                 svc_Ports := [5000%Z] |} 5000%Z eq_refl eq_refl) as (_ & H & _).
  rewrite H. reflexivity.
Defined.

(** A service without ports makes the pass panic at [Ports[0]] once the
    deployment lookup is through and no apply error is pending; the
    deferred [Done] still runs, but the item is neither forgotten nor
    re-added, and nothing is written back. *)
Theorem portless_service_panics env c svc key q :
  NewForConfig env = None ->
  Get env (resourceName env (DeploymentNamespace env)) = Got (Some c) ->
  DeletionTimestamp (Meta c) = None ->
  SpecManagementState (Spec c) = Unmanaged ->
  (forall name ns e, (deploymentsGet env name ns).2 = Some e -> IsNotFound e = true) ->
  servicesGet env (ServiceName env) (DeploymentNamespace env) = (Some svc, None) ->
  svc_Ports svc = [] ->
  sync env = (Panicked, []) /\
  processItem env (ItemString key) q = (Panicked, Done (ItemString key) q, []) /\
  delayed (Done (ItemString key) q) = delayed q /\
  failures (Done (ItemString key) q) = failures q.
Proof.
  intros Hc Hg Hd Hst Hdep Hsvc Hports.
  assert (Hs : sync env = (Panicked, [])).
  { unfold sync. rewrite Hc, Hg, Hd. unfold settle, manage, resolveHostname. run. cbn.
    rewrite Hst. cbn.
    specialize (Hdep (Name (Meta c)) (DeploymentNamespace env)).
    destruct (deploymentsGet env (Name (Meta c)) (DeploymentNamespace env)) as [dep [e|]];
      cbn in *; [rewrite (Hdep e eq_refl); cbn|];
      rewrite Hsvc; cbn; rewrite Hports; reflexivity. }
  split; [exact Hs|]. split; [|split; reflexivity].
  unfold processItem. rewrite Hs. reflexivity.
Qed.

Lemma portless_service_panics_witness :
  sync (withServices portless (cluster (Got (Some unmanaged)) unchanged None)) = (Panicked, []).
Proof.
  destruct (portless_service_panics
              (withServices portless (cluster (Got (Some unmanaged)) unchanged None)) unmanaged
              {| svc_Name := "image-registry"; svc_Namespace := "openshift-image-registry";
                 svc_Ports := [] |} WORKQUEUE_KEY idle
              eq_refl eq_refl eq_refl eq_refl) as [H _].
  - intros name ns e He. discriminate He.
  - reflexivity.
  - reflexivity.
  - exact H.
Defined.

(** ** More on the event processor *)

(** However an item is processed (a value that is no string, a pass that
    succeeds, fails or panics), [Done] has run when the closure is left:
    the item is no longer among the items in processing, and the other
    items in processing are kept. *)
Theorem processItem_marks_done env obj q :
  let q' := (processItem env obj q).1.2 in
  (obj ∉ processing q') /\
  (forall o, o <> obj -> (o ∈ processing q' <-> o ∈ processing q)).
Proof.
  cbv zeta.
  assert (H : processing (processItem env obj q).1.2
              = filter (fun o => o <> obj) (processing q)).
  { unfold processItem. destruct obj; [|reflexivity].
    destruct (sync env) as [[[e|]|] tr]; reflexivity. }
  rewrite H. split.
  - rewrite list_elem_of_filter. tauto.
  - intros o Ho. rewrite list_elem_of_filter. tauto.
Qed.

(** When the client cannot be built, or the object cannot be fetched for
    another reason than NotFound, the pass calls nothing and returns an
    error, and the event processor schedules a retry of the constant key. *)
Theorem fetch_failure_retries env key q :
  (NewForConfig env <> None \/
   exists c err, Get env (resourceName env (DeploymentNamespace env)) = GetFailed c err /\
                 IsNotFound err = false) ->
  exists e,
    sync env = (Returned (Some e), []) /\
    processItem env (ItemString key) q
    = (Returned (Some (Errorf ("unable to sync: " +:+ Error e +:+ ", requeuing"))),
       Done (ItemString key) (AddRateLimited WORKQUEUE_KEY q), []).
Proof.
  intros H.
  assert (Hs : exists e, sync env = (Returned (Some e), [])).
  { unfold sync. destruct (NewForConfig env) as [msg|]; [eauto|].
    destruct H as [H|(c & err & -> & ->)]; [congruence | eauto]. }
  destruct Hs as [e Hs]. exists e. split; [exact Hs|].
  unfold processItem. rewrite Hs. reflexivity.
Qed.

Lemma fetch_failure_retries_witness :
  exists e, sync (cluster unreachable unchanged None) = (Returned (Some e), []).
Proof.
  destruct (fetch_failure_retries (cluster unreachable unchanged None) WORKQUEUE_KEY idle)
    as (e & Hs & _).
  - right. do 2 eexists. split; reflexivity.
  - exists e. exact Hs.
Defined.

(** A pass over a settled object is idle.  When the object is [Managed]
    with Removed already false, every step of the apply path leaves object
    and flag alone, the stored hostname is the one of the service and
    [syncStatus] changes nothing, the pass applies once, returns nil and
    writes nothing back. *)
Theorem settled_pass_writes_nothing env c d dep svc port :
  NewForConfig env = None ->
  Get env (resourceName env (DeploymentNamespace env)) = Got (Some c) ->
  DeletionTimestamp (Meta c) = None ->
  SpecManagementState (Spec c) = Managed ->
  Conditions (Status c) !! "Removed"
  = Some {| cond_Status := ConditionFalse; cond_Message := EmptyString |} ->
  appendFinalizer env c false = (c, false) ->
  verifyResource env c = (c, None) ->
  NewDriver env (Name (Meta c)) (DeploymentNamespace env) (Storage (Spec c))
  = (Storage (Spec c), Ok d) ->
  ValidateConfiguration env d c false = (c, false, None) ->
  Apply env c false = (c, false, None) ->
  deploymentsGet env (Name (Meta c)) (DeploymentNamespace env) = (dep, None) ->
  servicesGet env (ServiceName env) (DeploymentNamespace env) = (Some svc, None) ->
  svc_Ports svc !! 0%nat = Some port ->
  InternalRegistryHostname (Status c)
  = svc_Name svc +:+ "." +:+ svc_Namespace svc +:+ ".svc.cluster.local:" +:+ pretty port ->
  syncStatus env c dep None false = (c, false) ->
  sync env = (Returned None, [CallApply c]).
Proof.
  intros Hc Hg Hd Hst Hrm Haf Hv Hn Hval Hap Hdep Hsvc Hport Hh Hss.
  assert (Hw : withStorage (Storage (Spec c)) c = c) by (destruct c as [m [st sg] stt]; reflexivity).
  unfold sync. rewrite Hc, Hg, Hd.
  unfold settle, manage, CreateOrUpdateResources, createOrUpdateResources, conditionRemoved,
    updateCondition, resolveHostname, writeBack.
  run. cbn. rewrite Hst. cbn.
  rewrite decide_True by exact Hrm. cbn.
  rewrite Hst. cbn. rewrite Haf. cbn. rewrite Hv. cbn. rewrite Hn. cbn.
  rewrite Hw, Hval. cbn.
  rewrite Hap. cbn. rewrite Hdep. cbn. rewrite Hsvc. cbn. rewrite Hport. cbn.
  rewrite decide_False by (intros Hne; exact (Hne Hh)). cbn.
  rewrite Hss. reflexivity.
Qed.

Lemma settled_pass_writes_nothing_witness :
  sync (cluster (Got (Some settled)) unchanged None) = (Returned None, [CallApply settled]).
Proof.
  apply (settled_pass_writes_nothing (cluster (Got (Some settled)) unchanged None) settled
           {| drv_kind := BS3; drv_config := [("bucket", "registry")] |}
           (Some {| deploy_Name := "image-registry" |})
           {| svc_Name := "image-registry"; svc_Namespace := "openshift-image-registry";
              svc_Ports := [5000%Z] |} 5000%Z); reflexivity.
Defined.

(** ** Starting the controller *)

Lemma startWatchers_error start order :
  (startWatchers start order).1 <> None <-> exists w, w ∈ order /\ start w <> None.
Proof.
  induction order as [|w rest IH]; cbn.
  - split; [congruence | intros (w & Hw & _); now apply elem_of_nil in Hw].
  - destruct (start w) as [msg|] eqn:Hs; cbn.
    + split; [intros _; exists w; split; [apply list_elem_of_here | congruence] | discriminate].
    + destruct (startWatchers start rest) as [err evs]. cbn in *. rewrite IH.
      split; intros (w' & Hw' & Hf); exists w'; (split; [|exact Hf]).
      * now apply list_elem_of_further.
      * apply elem_of_cons in Hw' as [->|Hw']; [congruence | exact Hw'].
Qed.

Lemma startWatchers_all start order :
  (startWatchers start order).1 = None ->
  forall w, w ∈ order -> WatcherStart w ∈ (startWatchers start order).2.
Proof.
  induction order as [|w rest IH]; cbn; [intros _ w Hw; now apply elem_of_nil in Hw|].
  destruct (start w) as [msg|]; cbn; [discriminate|].
  destruct (startWatchers start rest) as [err evs]. cbn in *.
  intros He w' Hw'. apply elem_of_cons in Hw' as [->|Hw']; [apply list_elem_of_here|].
  apply list_elem_of_further, IH; assumption.
Qed.

Lemma startWatchers_events start order ev :
  ev ∈ (startWatchers start order).2 -> exists w, ev = WatcherStart w /\ w ∈ order.
Proof.
  induction order as [|w rest IH]; cbn; [intros H; now apply elem_of_nil in H|].
  destruct (start w) as [msg|]; cbn.
  - intros H. apply list_elem_of_singleton in H. exists w. split; [exact H | apply list_elem_of_here].
  - destruct (startWatchers start rest) as [err evs]. cbn in *.
    intros H. apply elem_of_cons in H as [->|H]; [exists w; split; [reflexivity | apply list_elem_of_here]|].
    destruct (IH H) as (w' & -> & Hw'). exists w'. split; [reflexivity | now apply list_elem_of_further].
Qed.

(** In whatever order the loop meets the nine watchers, [Run] fails exactly
    when one of them fails to start; the event processor is launched
    exactly when [Run] does not fail, and then every watcher has been
    started; the queue is shut down last on either way out. *)
Theorem Run_fails_iff_a_watcher_fails start order :
  order ≡ₚ watcherNames ->
  ((Run start order).1 <> None <-> exists w, w ∈ watcherNames /\ start w <> None) /\
  (EventProcessorStart ∈ (Run start order).2 <-> (Run start order).1 = None) /\
  ((Run start order).1 = None ->
   forall w, w ∈ watcherNames -> WatcherStart w ∈ (Run start order).2) /\
  last (Run start order).2 = Some QueueShutDown.
Proof.
  intros Hperm.
  pose proof (startWatchers_error start order) as He.
  pose proof (startWatchers_all start order) as Ha.
  pose proof (fun ev => startWatchers_events start order ev) as Hev.
  unfold Run. destruct (startWatchers start order) as [[e|] evs]; cbn in *.
  - repeat split.
    + intros _. destruct (proj1 He) as (w & Hw & Hf); [congruence|].
      exists w. split; [now rewrite <- Hperm | exact Hf].
    + discriminate.
    + intros H. apply elem_of_cons in H as [H|H]; [discriminate H|].
      apply elem_of_app in H as [H|H].
      * destruct (Hev _ H) as (w & Hw & _). discriminate Hw.
      * apply list_elem_of_singleton in H. discriminate H.
    + discriminate.
    + discriminate.
    + change (StatusCreate :: evs ++ [QueueShutDown])
        with ((StatusCreate :: evs) ++ [QueueShutDown]).
      apply last_snoc.
  - repeat split.
    + intros H. now destruct H.
    + intros (w & Hw & Hf). rewrite <- Hperm in Hw.
      destruct (proj2 He) as []; [exists w; auto | reflexivity].
    + intros _. apply list_elem_of_further, elem_of_app. right. apply list_elem_of_here.
    + intros _ w Hw. rewrite <- Hperm in Hw. specialize (Ha eq_refl w Hw).
      apply list_elem_of_further, elem_of_app. left. exact Ha.
    + replace (StatusCreate :: evs ++ [EventProcessorStart; QueueShutDown])
        with ((StatusCreate :: evs ++ [EventProcessorStart]) ++ [QueueShutDown])
        by (cbn; now rewrite <- app_assoc).
      apply last_snoc.
Qed.

Lemma Run_fails_iff_a_watcher_fails_witness :
  (Run (fun w => if decide (w = "routes") then Some "routes are not served" else None)
       (reverse watcherNames)).1 <> None.
Proof.
  destruct (Run_fails_iff_a_watcher_fails
              (fun w => if decide (w = "routes") then Some "routes are not served" else None)
              (reverse watcherNames)) as [H _].
  - apply reverse_Permutation.
  - apply H. exists "routes". split; [|discriminate].
    do 5 apply list_elem_of_further. apply list_elem_of_here.
Defined.
